(** * ios-dimensions: the dataset generation script

    A shallow embedding of [packages/ios-dimensions/scripts/generate.ts]:
    the Listr task list that checks the host, gathers the simulator
    devices, measures every device (xcodebuild, xcparse, parsing of the
    extracted attachments, clean-up), sorts the gathered records by hash
    code and writes the two JSON files.

    Conventions of the embedding.
    - A parsed JSON document is a tree ([JSON.value]); an object is the
      list of its properties in enumeration order; a number is an integer
      (the binary floating-point representation of JavaScript numbers is
      not modelled; [Doubles] adds the numbers that are not finite, for
      the radius); a string is a list of 8-bit characters.
    - [undefined] is [None].
    - A task is a function from the state (the Listr context and the
      file system / console) to an outcome and a state; a rejected promise
      or a thrown exception is [inl].
    - External processes and the helpers of [scripts/utils] are read from
      a [Host] record. *)

From Stdlib Require Import List String Ascii ZArith NArith Bool Lia.
From Stdlib Require Import Permutation Sorted DecimalString DecimalZ DecimalPos.
Import ListNotations.

Local Open Scope string_scope.

(* ================================================================== *)
(** * Part I: definitions *)
(* ================================================================== *)

(** ** JSON values and [JSON.stringify] *)

Module JSON.

#[local] Set Warnings "-register-all".

Inductive value : Type :=
| Null
| Bool (b : bool)
| Number (n : Z)
| Str (s : string)
| Array (items : list value)
| Object (props : list (string * value)).

(** Induction on a JSON tree, with the hypothesis available for every
    item of an array and every property value of an object. *)
Section ValueInduction.
Variable P : value -> Prop.
Hypothesis HNull : P Null.
Hypothesis HBool : forall b, P (Bool b).
Hypothesis HNumber : forall n, P (Number n).
Hypothesis HStr : forall s, P (Str s).
Hypothesis HArray : forall items, Forall P items -> P (Array items).
Hypothesis HObject :
  forall props, Forall (fun kv => P (snd kv)) props -> P (Object props).

Fixpoint value_induction (v : value) : P v :=
  match v with
  | Null => HNull
  | Bool b => HBool b
  | Number n => HNumber n
  | Str s => HStr s
  | Array items =>
      HArray items
        ((fix go (l : list value) : Forall P l :=
            match l with
            | [] => Forall_nil _
            | x :: l' => Forall_cons x (value_induction x) (go l')
            end) items)
  | Object props =>
      HObject props
        ((fix go (l : list (string * value)) : Forall (fun kv => P (snd kv)) l :=
            match l with
            | [] => Forall_nil _
            | kv :: l' =>
                Forall_cons (P := fun kv => P (snd kv)) kv
                  (value_induction (snd kv)) (go l')
            end) props)
  end.
End ValueInduction.

(** The two characters that would end a Rocq string literal or read as an
    escape are written by their codes. *)
Definition dquote : ascii := "034"%char.
Definition bslash : ascii := "092"%char.

Definition hex_digit (n : N) : ascii :=
  if (n <? 10)%N then ascii_of_N (48 + n) else ascii_of_N (87 + n).

(** QuoteJSONString, one code unit: the two-character escapes, [\u00xx]
    for the other control characters, the character itself otherwise. *)
Definition quote_char (c : ascii) : string :=
  let n := N_of_ascii c in
  if (n =? 34)%N then String bslash (String dquote EmptyString)
  else if (n =? 92)%N then String bslash (String bslash EmptyString)
  else if (n =? 8)%N then String bslash "b"
  else if (n =? 9)%N then String bslash "t"
  else if (n =? 10)%N then String bslash "n"
  else if (n =? 12)%N then String bslash "f"
  else if (n =? 13)%N then String bslash "r"
  else if (n <? 32)%N then
    String bslash
      ("u00" ++ String (hex_digit (n / 16)) (String (hex_digit (n mod 16)) EmptyString))
  else String c EmptyString.

Fixpoint quote_body (s : string) : string :=
  match s with
  | EmptyString => EmptyString
  | String c s' => quote_char c ++ quote_body s'
  end.

Definition quote (s : string) : string :=
  String dquote (quote_body s ++ String dquote EmptyString).

(** Number::toString on an integer: the decimal numeral, with a minus
    sign when negative. *)
Definition number_to_string (n : Z) : string :=
  NilZero.string_of_int (Z.to_int n).

(** [JSON.stringify(v)] without indentation: no white space, properties
    and items in enumeration order, joined by commas. *)
Fixpoint stringify (v : value) : string :=
  match v with
  | Null => "null"
  | Bool true => "true"
  | Bool false => "false"
  | Number n => number_to_string n
  | Str s => quote s
  | Array items => "[" ++ String.concat "," (map stringify items) ++ "]"
  | Object props =>
      "{" ++ String.concat ","
               (map (fun kv => quote (fst kv) ++ ":" ++ stringify (snd kv)) props)
          ++ "}"
  end.

(** One property of an object, as serialized. *)
Definition member_string (kv : string * value) : string :=
  quote (fst kv) ++ ":" ++ stringify (snd kv).

(** Inverse of [quote_char] at the head of a string; used to show that
    quoting loses nothing. *)
Definition hex_value (c : ascii) : option N :=
  let n := N_of_ascii c in
  if ((48 <=? n) && (n <=? 57))%N then Some (n - 48)%N
  else if ((97 <=? n) && (n <=? 102))%N then Some (n - 87)%N
  else None.

Definition unquote_char (s : string) : option (ascii * string) :=
  match s with
  | EmptyString => None
  | String c rest =>
      if Ascii.eqb c dquote then None
      else if Ascii.eqb c bslash then
        match rest with
        | EmptyString => None
        | String e rest' =>
            if Ascii.eqb e dquote then Some (dquote, rest')
            else if Ascii.eqb e bslash then Some (bslash, rest')
            else if Ascii.eqb e "b" then Some ("008"%char, rest')
            else if Ascii.eqb e "t" then Some ("009"%char, rest')
            else if Ascii.eqb e "n" then Some ("010"%char, rest')
            else if Ascii.eqb e "f" then Some ("012"%char, rest')
            else if Ascii.eqb e "r" then Some ("013"%char, rest')
            else if Ascii.eqb e "u" then
              match rest' with
              | String "0" (String "0" (String h (String l rest''))) =>
                  match hex_value h, hex_value l with
                  | Some a, Some b => Some (ascii_of_N (16 * a + b), rest'')
                  | _, _ => None
                  end
              | _ => None
              end
            else None
        end
      else Some (c, rest)
  end.

(** Characters a numeral is made of. *)
Definition is_num_char (c : ascii) : bool :=
  let n := N_of_ascii c in
  ((n =? 45) || ((48 <=? n) && (n <=? 57)))%N.

Fixpoint all_chars (p : ascii -> bool) (s : string) : bool :=
  match s with
  | EmptyString => true
  | String c s' => p c && all_chars p s'
  end.

(** What may follow a value inside a document: nothing, or a character
    that is not part of a numeral (a comma or a closing bracket). *)
Definition tail_ok (r : string) : Prop :=
  match r with
  | EmptyString => True
  | String c _ => is_num_char c = false
  end.

(** What follows the first item of a comma-separated sequence. *)
Fixpoint tails {A : Type} (f : A -> string) (l : list A) : string :=
  match l with
  | [] => EmptyString
  | y :: l' => "," ++ f y ++ tails f l'
  end.

(** [f] is a prefix code at [x]: what [f x] is followed by can be told
    apart from [f x] itself. *)
Definition prefix_free {A : Type} (f : A -> string) (x : A) : Prop :=
  forall y r r', tail_ok r -> tail_ok r' -> f x ++ r = f y ++ r' -> x = y /\ r = r'.

End JSON.

(** ** The records of the script *)

(** A parsed JSON object: its properties in enumeration order. *)
Definition JSONObject : Type := list (string * JSON.value).

(** Property access [o.key]: [undefined] when [o] has no such property. *)
Fixpoint get (key : string) (o : JSONObject) : option JSON.value :=
  match o with
  | [] => None
  | (k, v) :: o' => if String.eqb k key then Some v else get key o'
  end.

(** The rest element of an object destructuring pattern: the properties
    that the pattern does not name, in their order. *)
Definition rest (named : list string) (o : JSONObject) : JSONObject :=
  filter (fun kv => negb (existsb (String.eqb (fst kv)) named)) o.

(** Modelled from the spec: the type declarations of [src/types] are not
    part of the sources at hand. [ExtractedDimensions] is the object read
    from one attachment file, [OrientedDimensions] what is left of it once
    [orientation], [device], [scale] and [radius] are taken out, and
    [Dimensions] the object literal built by the script, with exactly the
    five properties below. TypeScript types are erased when the script
    runs, so a property holds whatever the file held, or [undefined]. *)
Definition ExtractedDimensions : Type := JSONObject.
Definition OrientedDimensions : Type := JSONObject.

Record Dimensions : Type := mkDimensions {
  device : option JSON.value;
  landscape : option OrientedDimensions;
  portrait : option OrientedDimensions;
  radius : option JSON.value;
  scale : option JSON.value
}.

(** A property of an object literal as [JSON.stringify] sees it: left out
    when its value is [undefined]. *)
Definition property (key : string) (v : option JSON.value) : JSONObject :=
  match v with
  | Some x => [(key, x)]
  | None => []
  end.

(** The object literal [{ device, landscape, portrait, radius, scale }]. *)
Definition Dimensions_value (d : Dimensions) : JSON.value :=
  JSON.Object
    (property "device" (device d)
     ++ property "landscape" (option_map JSON.Object (landscape d))
     ++ property "portrait" (option_map JSON.Object (portrait d))
     ++ property "radius" (radius d)
     ++ property "scale" (scale d)).

Definition JSON_stringify (d : Dimensions) : string :=
  JSON.stringify (Dimensions_value d).




(** ** Parsing extracted dimensions: the loop over the attachments *)

(** The five [let] bindings before the loop: nothing assigned yet. *)
Definition unassigned : Dimensions :=
  mkDimensions None None None None None.

(** [orientation === "portrait"]. *)
Definition is_portrait (orientation : option JSON.value) : bool :=
  match orientation with
  | Some (JSON.Str s) => String.eqb s "portrait"
  | _ => false
  end.

(** [...dimensions] in the destructuring of an attachment. *)
Definition payload (a : ExtractedDimensions) : OrientedDimensions :=
  rest ["orientation"; "device"; "scale"; "radius"] a.

(** One iteration of the loop, on an attachment already read. *)
Definition assign (a : ExtractedDimensions) (s : Dimensions) : Dimensions :=
  let dimensions := payload a in
  if is_portrait (get "orientation" a)
  then mkDimensions (get "device" a) (landscape s) (Some dimensions)
                    (get "radius" a) (get "scale" a)
  else mkDimensions (get "device" a) (Some dimensions) (portrait s)
                    (get "radius" a) (get "scale" a).

(** The loop over attachments that can all be read, and the object
    literal built after it. *)
Definition assemble (l : list ExtractedDimensions) : Dimensions :=
  fold_left (fun s a => assign a s) l unassigned.

(** [isUniqueDimensions]: no record gathered so far has the same
    serialization. *)
Definition isUniqueDimensions (gathered : list Dimensions) (d : Dimensions) : bool :=
  negb (existsb (fun s => String.eqb s (JSON_stringify d))
                (map JSON_stringify gathered)).

(** [if (isUniqueDimensions) context.dimensions.push(dimensions)]. *)
Definition push_unique (gathered : list Dimensions) (d : Dimensions) : list Dimensions :=
  if isUniqueDimensions gathered d then gathered ++ [d] else gathered.

(** ** Sorting *)

(** [Array.prototype.sort(comparefn)]: a stable sort (ECMAScript 2019);
    [comparefn a b > 0] puts [a] after [b]. Every stable sort returns the
    same array for a consistent [comparefn]; this one inserts from the
    right. *)
Fixpoint sort_insert {A : Type} (comparefn : A -> A -> Z) (x : A) (l : list A) : list A :=
  match l with
  | [] => [x]
  | y :: l' =>
      if (comparefn x y >? 0)%Z then y :: sort_insert comparefn x l'
      else x :: y :: l'
  end.

Fixpoint Array_sort {A : Type} (comparefn : A -> A -> Z) (l : list A) : list A :=
  match l with
  | [] => []
  | x :: l' => sort_insert comparefn x (Array_sort comparefn l')
  end.

(** The compare function [(a, b) => key(a) - key(b)]. *)
Definition by_key {A : Type} (key : A -> Z) (a b : A) : Z := (key a - key b)%Z.

(** Ascending keys, each element against all the later ones. *)
Definition ascending {A : Type} (key : A -> Z) : list A -> Prop :=
  StronglySorted (fun a b => (key a <= key b)%Z).

(** ** Errors *)

(** Modelled from the spec: [scripts/utils/silent-error] is not part of
    the sources at hand. A [SilentError] is the error class thrown for an
    intentional early termination; [isSilentError] recognises it. Every
    other rejection is an ordinary [Error]. *)
Inductive Error : Type :=
| SilentError (message : string)
| OtherError (message : string).

Definition isSilentError (error : Error) : bool :=
  match error with
  | SilentError _ => true
  | OtherError _ => false
  end.

(** ** The host: external processes and helpers *)

Record SimulatorDevice : Type := { name : string }.

(** What [xcodebuild] did: exit status 0, with the derived data written
    under [DERIVED_DATA]; or a failure, which may or may not have left
    that directory behind. *)
Inductive BuildOutcome : Type :=
| Built
| BuildFailed (error : Error) (left_derived_data : bool).

(** One device's run of the toolchain, as the script observes it. *)
Record DeviceRun : Type := {
  xcodebuild : BuildOutcome;
  (** [globby] of [Logs/Test/*.xcresult] *)
  xcresult : list string;
  (** [xcparse attachments output DERIVED_DATA]: [None] is exit status 0 *)
  xcparse : option string -> option Error;
  (** [globby] of [*.txt], and what [getJSON] returns for each file *)
  attachments : list (Error + ExtractedDimensions)
}.

(** A promise: an object that is settled later, with a value or with an
    error. What becomes of a promise that nobody awaits is outside the
    model. *)
Inductive Promise (A : Type) : Type :=
| Resolved (value : A)
| Rejected (error : Error).

Arguments Resolved {A} value.
Arguments Rejected {A} error.

(** ToBoolean of an object, whatever it holds. *)
Definition ToBoolean {A : Type} (object : Promise A) : bool := true.

(** Modelled from the spec: [scripts/utils/get-devices],
    [scripts/utils/get-hash-code] and [scripts/utils/is-macOS] are not
    part of the sources at hand; they are read from the host, as are the
    outcomes of the external commands and of the packages [app-exists],
    [command-exists] and [write-json-file]. [withApp] and [withCommand]
    are the default exports of [app-exists] and [command-exists]: each
    returns a promise of the answer. [getHashCode] is any function from a
    record to an integer. *)
Record Host : Type := {
  isMacOS : bool;
  withApp : string -> Promise bool;
  withCommand : string -> Promise bool;
  getDevices : Error + (list SimulatorDevice * string);
  simulate : string -> DeviceRun;
  getHashCode : Dimensions -> Z;
  writeJSON_error : string -> option Error
}.

(** ** The state a task runs in *)

Record Context : Type := mkContext {
  devices : list SimulatorDevice;
  dimensions : list Dimensions;
  platform : string
}.

(** Effects on the outside, in the order they happen. *)
Inductive Effect : Type :=
| CallGetDevices
| RunXcodebuild (destination : string)
| RunXcparse (output : option string)
| Globby (pattern : string)
| GetJSON
| Trash (path : string)
| WriteJSON (path : string)
| ConsoleError (error : Error).

(** What a file written by the script holds. *)
Inductive Written : Type :=
| DimensionsFile (content : list Dimensions)
| LogsFile (platform : string).

Record World : Type := mkWorld {
  (** does [DERIVED_DATA] exist *)
  derived_data : bool;
  (** [./src/data/dimensions.json] and [./src/data/logs.json] *)
  dimensions_json : option Written;
  logs_json : option Written;
  (** every effect so far, oldest first *)
  effects : list Effect
}.

(** What outlives a run: the two files and the writes made to them. *)
Definition is_write (e : Effect) : bool :=
  match e with
  | WriteJSON _ => true
  | _ => false
  end.

Definition durable (w : World) : option Written * option Written * list Effect :=
  (dimensions_json w, logs_json w, filter is_write (effects w)).

Definition is_trash (e : Effect) : bool :=
  match e with
  | Trash _ => true
  | _ => false
  end.

Definition State : Type := Context * World.

(** A task: it ends normally or throws, and leaves a state. *)
Definition Task : Type := State -> (Error + unit) * State.

Definition perform (e : Effect) (w : World) : World :=
  mkWorld (derived_data w) (dimensions_json w) (logs_json w) (effects w ++ [e]).

Definition set_derived_data (b : bool) (w : World) : World :=
  mkWorld b (dimensions_json w) (logs_json w) (effects w).

(** [new Listr(tasks)] with the default options ([concurrent: false],
    [exitOnError: true]): the tasks run in order, and the first one that
    throws ends the list with its error; the tasks after it do not run. *)
Fixpoint Listr (tasks : list Task) (st : State) : (Error + unit) * State :=
  match tasks with
  | [] => (inr tt, st)
  | task :: tasks' =>
      match task st with
      | (inl error, st') => (inl error, st')
      | (inr _, st') => Listr tasks' st'
      end
  end.

(** ** The script *)

Definition SCHEME : string := "dimensions".
Definition PROJECT : string := "./src/dimensions/dimensions.xcodeproj".
Definition DERIVED_DATA : string := "/tmp/com.marcbouchenoire.dimensions".
Definition DIMENSIONS : string := "./src/data/dimensions.json".
Definition LOGS : string := "./src/data/logs.json".

(** Modelled from the spec: [scripts/utils/trash] is not part of the
    sources at hand; it removes the location it is given. *)
Definition trash (path : string) (w : World) : World :=
  set_derived_data false (perform (Trash path) w).

(** [writeJSON(path, data)]: the file is replaced as a whole, unless the
    host refuses the write. *)
Definition writeJSON (host : Host) (path : string) (data : Written) (w : World)
  : (Error + unit) * World :=
  let w' := perform (WriteJSON path) w in
  match writeJSON_error host path with
  | Some error => (inl error, w')
  | None =>
      (inr tt,
       if String.eqb path DIMENSIONS
       then mkWorld (derived_data w') (Some data) (logs_json w') (effects w')
       else if String.eqb path LOGS
       then mkWorld (derived_data w') (dimensions_json w') (Some data) (effects w')
       else w')
  end.

(** The [for] loop of the parsing task: [getJSON] of each attachment,
    then the assignments; a file that cannot be read ends the loop with
    the error. *)
Fixpoint parse_attachments (files : list (Error + ExtractedDimensions))
    (s : Dimensions) (w : World) : (Error + Dimensions) * World :=
  match files with
  | [] => (inr s, w)
  | file :: files' =>
      let w' := perform GetJSON w in
      match file with
      | inl error => (inl error, w')
      | inr a => parse_attachments files' (assign a s) w'
      end
  end.

Section Script.
Variable host : Host.

(** "Verifying requirements". The script negates what [withApp] and
    [withCommand] return: the promise itself, which it does not await. *)
Definition verifying_requirements : Task :=
  fun st =>
    if negb (isMacOS host) then
      (inl (SilentError "Xcode is only available on macOS."), st)
    else if negb (ToBoolean (withApp host "Xcode")) then
      (inl (SilentError
              ("Xcode is required. (https://developer.apple.com/xcode/)"
               ++ String JSON.dquote ")}")), st)
    else if negb (ToBoolean (withCommand host "xcodebuild")) then
      (inl (SilentError
              "Xcode Command Line Tools are required. (https://developer.apple.com/xcode/resources/)"),
       st)
    else if negb (ToBoolean (withCommand host "xcparse")) then
      (inl (SilentError "xcparse is required. (https://github.com/ChargePoint/xcparse)"), st)
    else (inr tt, st).

(** "Gathering devices" *)
Definition gathering_devices : Task :=
  fun '(context, w) =>
    let w' := perform CallGetDevices w in
    match getDevices host with
    | inl error => (inl error, (context, w'))
    | inr (found, version) =>
        (inr tt, (mkContext found (dimensions context) version, w'))
    end.

(** "Extracting dimensions" *)
Definition extracting_dimensions (d : SimulatorDevice) : Task :=
  fun '(context, w) =>
    let w' := perform (RunXcodebuild ("platform=iOS Simulator,name=" ++ name d)) w in
    match xcodebuild (simulate host (name d)) with
    | Built => (inr tt, (context, set_derived_data true w'))
    | BuildFailed error remains =>
        (inl error, (context, set_derived_data (derived_data w' || remains) w'))
    end.

(** "Parsing extracted dimensions" *)
Definition parsing_extracted_dimensions (d : SimulatorDevice) : Task :=
  fun '(context, w) =>
    let run := simulate host (name d) in
    let w1 := perform (Globby (DERIVED_DATA ++ "/Logs/Test/*.xcresult")) w in
    let output := hd_error (xcresult run) in
    let w2 := perform (RunXcparse output) w1 in
    match xcparse run output with
    | Some error => (inl error, (context, w2))
    | None =>
        let w3 := perform (Globby (DERIVED_DATA ++ "/*.txt")) w2 in
        match parse_attachments (attachments run) unassigned w3 with
        | (inl error, w4) => (inl error, (context, w4))
        | (inr record, w4) =>
            (inr tt,
             (mkContext (devices context)
                        (push_unique (dimensions context) record)
                        (platform context), w4))
        end
    end.

(** "Cleaning up extraction cache" *)
Definition cleaning_up_extraction_cache : Task :=
  fun '(context, w) => (inr tt, (context, trash DERIVED_DATA w)).

(** The task of one device: a list of its own. *)
Definition device_task (d : SimulatorDevice) : Task :=
  Listr [extracting_dimensions d;
         parsing_extracted_dimensions d;
         cleaning_up_extraction_cache].

(** "Gathering dimensions" *)
Definition gathering_dimensions : Task :=
  fun '(context, w) =>
    Listr (map device_task (devices context))
          (mkContext (devices context) [] (platform context), w).

(** The compare function of the sorting task. *)
Definition by_hash_code : Dimensions -> Dimensions -> Z :=
  by_key (getHashCode host).

(** "Sorting dimensions" *)
Definition sorting_dimensions : Task :=
  fun '(context, w) =>
    (inr tt,
     (mkContext (devices context)
                (Array_sort by_hash_code (dimensions context))
                (platform context), w)).

(** "Generating files" *)
Definition generating_files : Task :=
  fun '(context, w) =>
    match writeJSON host DIMENSIONS (DimensionsFile (dimensions context)) w with
    | (inl error, w') => (inl error, (context, w'))
    | (inr _, w') =>
        match writeJSON host LOGS (LogsFile (platform context)) w' with
        | (inl error, w'') => (inl error, (context, w''))
        | (inr _, w'') => (inr tt, (context, w''))
        end
    end.

Definition tasks : list Task :=
  [verifying_requirements;
   gathering_devices;
   gathering_dimensions;
   sorting_dimensions;
   generating_files].

(** The context a run starts with; every property is assigned by a task
    before a later task reads it. *)
Definition empty_context : Context := mkContext [] [] EmptyString.

(** [tasks.run().catch(...)]: a silent error ends the run quietly, any
    other error goes to [console.error]. *)
Definition handler (error : Error) (w : World) : World :=
  if isSilentError error then w else perform (ConsoleError error) w.

Definition run (w : World) : World :=
  match Listr tasks (empty_context, w) with
  | (inl error, (_, w')) => handler error w'
  | (inr _, (_, w')) => w'
  end.

(** The records gathered from a sequence of per-device records, and the
    dataset after the sorting task. *)
Definition gather (records : list Dimensions) : list Dimensions :=
  fold_left push_unique records [].

Definition DatasetAssembler (records : list Dimensions) : list Dimensions :=
  Array_sort by_hash_code (gather records).

End Script.

(** ** Sample data *)

Module Sample.
Import JSON.

Definition screen (width height : Z) : string * value :=
  ("screen", Object [("width", Number width); ("height", Number height)]).

Definition attachment (orientation : string) (r : Z) (width height : Z)
  : ExtractedDimensions :=
  [("orientation", Str orientation);
   ("device", Str "iPhone");
   ("scale", Number 3);
   ("radius", Number r);
   screen width height].

Definition iPhone_portrait : ExtractedDimensions := attachment "portrait" 0 390 844.
Definition iPhone_landscape : ExtractedDimensions := attachment "landscape" 0 844 390.
Definition iPhone_faceUp : ExtractedDimensions := attachment "faceUp" 0 390 844.

(** Two records that differ in [radius] only. *)
Definition radius_0 : Dimensions := assemble [iPhone_portrait; iPhone_landscape].
Definition radius_6 : Dimensions :=
  assemble [attachment "portrait" 6 390 844; attachment "landscape" 6 844 390].



Definition iPhone_14 : SimulatorDevice := {| name := "iPhone 14" |}.
Definition iPhone_SE : SimulatorDevice := {| name := "iPhone SE" |}.

Definition clean_run (files : list ExtractedDimensions) : DeviceRun :=
  {| xcodebuild := Built;
     xcresult := [DERIVED_DATA ++ "/Logs/Test/Test-dimensions.xcresult"];
     xcparse := fun _ => None;
     attachments := map inr files |}.

(** The build succeeds, then [xcparse] exits with an error. *)
Definition xcparse_fails : DeviceRun :=
  {| xcodebuild := Built;
     xcresult := [DERIVED_DATA ++ "/Logs/Test/Test-dimensions.xcresult"];
     xcparse := fun _ => Some (OtherError "Command failed: xcparse");
     attachments := [] |}.

(** A hash code that depends on the whole serialization and collides on
    [radius_0] and [radius_6]: the length of the serialization. *)
Definition length_hash (d : Dimensions) : Z :=
  Z.of_nat (String.length (JSON_stringify d)).


Definition mac (hash : Dimensions -> Z) (run : DeviceRun) : Host :=
  {| isMacOS := true;
     withApp := fun _ => Resolved true;
     withCommand := fun _ => Resolved true;
     getDevices := inr ([iPhone_14], "16.0");
     simulate := fun _ => run;
     getHashCode := hash;
     writeJSON_error := fun _ => None |}.

(** A host that is not a Mac. *)
Definition linux : Host :=
  {| isMacOS := false;
     withApp := fun _ => Resolved false;
     withCommand := fun _ => Rejected (OtherError "Command not found");
     getDevices := inl (OtherError "Command failed: xcrun");
     simulate := fun _ => clean_run [iPhone_portrait; iPhone_landscape];
     getHashCode := length_hash;
     writeJSON_error := fun _ => None |}.

Definition fresh : World := mkWorld false None None [].

(** A Mac on which [app-exists] does not find Xcode, while the command
    line tools and the simulators are there. *)
Definition no_Xcode : Host :=
  {| isMacOS := true;
     withApp := fun _ => Resolved false;
     withCommand := fun _ => Resolved true;
     getDevices := inr ([iPhone_14], "16.0");
     simulate := fun _ => clean_run [iPhone_portrait; iPhone_landscape];
     getHashCode := length_hash;
     writeJSON_error := fun _ => None |}.

End Sample.

(** ** Counting builds, and runs over several devices *)

Definition is_build (e : Effect) : bool :=
  match e with
  | RunXcodebuild _ => true
  | _ => false
  end.

Module Fleet.
Import JSON.

Definition iPad_Air : SimulatorDevice := {| name := "iPad Air" |}.

(** [xcodebuild] exits with an error and leaves its directory behind. *)
Definition build_fails : DeviceRun :=
  {| xcodebuild := BuildFailed (OtherError "Command failed: xcodebuild") true;
     xcresult := [];
     xcparse := fun _ => None;
     attachments := [] |}.

(** The second of three attachments cannot be read. *)
Definition second_unreadable : DeviceRun :=
  {| xcodebuild := Built;
     xcresult := [DERIVED_DATA ++ "/Logs/Test/Test-dimensions.xcresult"];
     xcparse := fun _ => None;
     attachments := [inr Sample.iPhone_portrait;
                     inl (OtherError "JSONError: Unexpected end of JSON input");
                     inr Sample.iPhone_landscape] |}.

Definition iPad_files : list ExtractedDimensions :=
  [Sample.attachment "portrait" 18 820 1180; Sample.attachment "landscape" 18 1180 820].

Definition files_of (device_name : string) : list ExtractedDimensions :=
  if String.eqb device_name "iPad Air" then iPad_files
  else [Sample.iPhone_portrait; Sample.iPhone_landscape].

(** Three devices, all going through; the two iPhones measure the same. *)
Definition three_devices : Host :=
  {| isMacOS := true;
     withApp := fun _ => Resolved true;
     withCommand := fun _ => Resolved true;
     getDevices := inr ([Sample.iPhone_14; iPad_Air; Sample.iPhone_SE], "16.0");
     simulate := fun device_name => Sample.clean_run (files_of device_name);
     getHashCode := Sample.length_hash;
     writeJSON_error := fun _ => None |}.

(** The same, with the build failing for the iPad. *)
Definition iPad_build_fails : Host :=
  {| isMacOS := true;
     withApp := fun _ => Resolved true;
     withCommand := fun _ => Resolved true;
     getDevices := inr ([Sample.iPhone_14; iPad_Air; Sample.iPhone_SE], "16.0");
     simulate := fun device_name =>
                   if String.eqb device_name "iPad Air" then build_fails
                   else Sample.clean_run (files_of device_name);
     getHashCode := Sample.length_hash;
     writeJSON_error := fun _ => None |}.

(** The same as [three_devices], on a host that refuses to write
    [logs.json]. *)
Definition logs_refused : Host :=
  {| isMacOS := true;
     withApp := fun _ => Resolved true;
     withCommand := fun _ => Resolved true;
     getDevices := inr ([Sample.iPhone_14; iPad_Air; Sample.iPhone_SE], "16.0");
     simulate := fun device_name => Sample.clean_run (files_of device_name);
     getHashCode := Sample.length_hash;
     writeJSON_error :=
       fun path => if String.eqb path LOGS
                   then Some (OtherError "EACCES: permission denied")
                   else None |}.

(** A world left by an earlier run. *)
Definition earlier : World :=
  mkWorld true
          (Some (DimensionsFile [Sample.radius_6]))
          (Some (LogsFile "15.5"))
          [].

End Fleet.

(** ** Radii that are not finite *)

Module Doubles.

(** A number as [JSON.parse] returns it: finite, or an infinity when the
    literal is out of the range of a double ([1e999], [-1e999]). A finite
    number is an integer, as in the rest of the model. *)
Inductive number : Type :=
| Finite (n : Z)
| Infinity (negative : bool).

(** What [JSON.stringify] serializes in place of a number: the number
    when it is finite, [null] when it is not. *)
Definition serialized (x : number) : JSON.value :=
  match x with
  | Finite n => JSON.Number n
  | Infinity _ => JSON.Null
  end.

(** The object literal of the parsing task once more, with [radius] a
    number of this kind. *)
Record Dimensions : Type := mkRecord {
  device : option JSON.value;
  landscape : option OrientedDimensions;
  portrait : option OrientedDimensions;
  radius : option number;
  scale : option JSON.value
}.

Definition as_serialized (d : Dimensions) :=
  mkDimensions (device d) (landscape d) (portrait d)
               (option_map serialized (radius d)) (scale d).

Definition JSON_stringify (d : Dimensions) : string :=
  JSON_stringify (as_serialized d).

(** [isUniqueDimensions], the push and the sort, as in the script. *)
Definition isUniqueDimensions (gathered : list Dimensions) (d : Dimensions) : bool :=
  negb (existsb (fun s => String.eqb s (JSON_stringify d))
                (map JSON_stringify gathered)).

Definition push_unique (gathered : list Dimensions) (d : Dimensions) : list Dimensions :=
  if isUniqueDimensions gathered d then gathered ++ [d] else gathered.

Definition gather (records : list Dimensions) : list Dimensions :=
  fold_left push_unique records [].

Definition DatasetAssembler (getHashCode : Dimensions -> Z) (records : list Dimensions)
  : list Dimensions :=
  Array_sort (by_key getHashCode) (gather records).




Definition length_hash (d : Dimensions) : Z :=
  Z.of_nat (String.length (JSON_stringify d)).

End Doubles.

(** ** The site: [components/Dimensions.tsx] *)

Module Site.

(** Modelled from the spec: [Dimensions], [Frame] and [Screen] come from
    the package [dimmmensions], whose declarations are not part of the
    sources at hand. A frame is a quadruple of insets, a screen a width
    and a height, in points; of a set of dimensions the functions below
    read the [name] and the [device] only. Numbers are integers, as in the
    rest of the model. *)
Record Frame : Type := mkFrame { top : Z; right : Z; bottom : Z; left : Z }.

Record Screen : Type := mkScreen { width : Z; height : Z }.

Record Dimensions : Type := mkDimensions { name : string; device : string }.

Definition newline : string := String "010"%char EmptyString.

(** [`${n}`] for a number. *)
Definition show (n : Z) : string := JSON.number_to_string n.

Definition DEFAULT_SCREEN_BOUNDS : Frame := mkFrame 0 0 0 0.

(** An integer that a JavaScript number holds exactly, with room for one
    subtraction: the differences below are then exact in the script too. *)
Definition safe (n : Z) : Prop := (Z.abs n <= 2 ^ 52)%Z.

Definition safe_frame (frame : Frame) : Prop :=
  safe (top frame) /\ safe (right frame) /\ safe (bottom frame) /\ safe (left frame).

Definition safe_screen (screen : Screen) : Prop :=
  safe (width screen) /\ safe (height screen).

(** The template literal of [getPathFromFrame]: four lines, the last
    three indented by ten spaces. The script subtracts JavaScript numbers,
    which round; the subtractions here are those of the script when the
    frame and the screen are [safe]. *)
Definition getPathFromFrame (frame : Frame) (width height : Z) : string :=
  "M " ++ show (left frame) ++ " " ++ show (top frame) ++ newline
  ++ "          V " ++ show (height - bottom frame) ++ newline
  ++ "          H " ++ show (width - right frame) ++ newline
  ++ "          V " ++ show (top frame) ++ " Z".

(** [getPathFromDimensions]: [undefined] when the reference frame is the
    bounds on all four sides. The caller passes the bounds, which default
    to [DEFAULT_SCREEN_BOUNDS]. *)
Definition getPathFromDimensions (screen : Screen) (reference bounds : Frame)
  : option string :=
  if ((top reference =? top bounds)
      && (right reference =? right bounds)
      && (bottom reference =? bottom bounds)
      && (left reference =? left bounds))%Z
  then None
  else Some (getPathFromFrame reference (width screen) (height screen)
             ++ newline ++ "  "
             ++ getPathFromFrame bounds (width screen) (height screen)).

(** *** The option lists *)

Section Catalogue.
(** [String.prototype.localeCompare] depends on the locale of the host;
    it is any function here. [defaultDimensions] is the dataset of the
    package. *)
Variable localeCompare : string -> string -> Z.
Variable defaultDimensions : list Dimensions.

Definition sortDimensions (a b : Dimensions) : Z :=
  localeCompare (name a) (name b).

Definition iPhone : list Dimensions :=
  Array_sort sortDimensions
    (filter (fun dimensions => String.eqb (device dimensions) "iPhone")
            defaultDimensions).

Definition iPad : list Dimensions :=
  Array_sort sortDimensions
    (filter (fun dimensions => String.eqb (device dimensions) "iPad")
            defaultDimensions).

(** *** The map from names to dimensions *)

(** [Map.prototype.set]: the value of a key that is there is replaced,
    a new key goes to the end. *)
Fixpoint Map_set {V : Type} (key : string) (v : V) (m : list (string * V))
  : list (string * V) :=
  match m with
  | [] => [(key, v)]
  | (k, x) :: m' =>
      if String.eqb k key then (k, v) :: m' else (k, x) :: Map_set key v m'
  end.

Fixpoint Map_get {V : Type} (key : string) (m : list (string * V)) : option V :=
  match m with
  | [] => None
  | (k, x) :: m' => if String.eqb k key then Some x else Map_get key m'
  end.

(** [new Map(entries)]: the entries are set one after the other. *)
Definition new_Map {V : Type} (entries : list (string * V)) : list (string * V) :=
  fold_left (fun m kv => Map_set (fst kv) (snd kv) m) entries [].

Definition attributedDimensions : list (string * Dimensions) :=
  new_Map (map (fun dimensions => (name dimensions, dimensions)) defaultDimensions).

(** *** The default device *)

(** The character classes of the pattern, on 8-bit characters. *)
Definition is_digit (c : ascii) : bool :=
  let n := N_of_ascii c in ((48 <=? n) && (n <=? 57))%N.

Definition is_word (c : ascii) : bool :=
  let n := N_of_ascii c in
  (((48 <=? n) && (n <=? 57)) || ((65 <=? n) && (n <=? 90))
   || ((97 <=? n) && (n <=? 122)) || (n =? 95))%N.

Definition is_space (c : ascii) : bool :=
  let n := N_of_ascii c in
  (((9 <=? n) && (n <=? 13)) || (n =? 32) || (n =? 160))%N.

(** The longest prefix whose characters satisfy [p], and the rest. *)
Fixpoint span (p : ascii -> bool) (l : list ascii) : list ascii * list ascii :=
  match l with
  | [] => ([], [])
  | c :: l' =>
      if p c then let (yes, rest) := span p l' in (c :: yes, rest)
      else ([], l)
  end.

(** What the script reads of a match: the string matched against and the
    first group. *)
Record Match : Type := mkMatch { input : string; group : string }.

(** [name.match(/\w+\s+(\d+)$/)]. The group has to end where the string
    ends and to start after a white space character, so it is the longest
    run of digits at the end; the white space before it is the longest
    run there, and has to follow a word character. Where [\w+] starts
    bears on the matched text only, which the script does not read.
    [None] is [null]. *)
Definition match_numbered (s : string) : option Match :=
  let backwards := rev (list_ascii_of_string s) in
  let (digits, before_digits) := span is_digit backwards in
  let (spaces, before_spaces) := span is_space before_digits in
  match digits, spaces, before_spaces with
  | _ :: _, _ :: _, c :: _ =>
      if is_word c
      then Some (mkMatch s (string_of_list_ascii (rev digits)))
      else None
  | _, _, _ => None
  end.

(** [Number(digits)] on a string of decimal digits. A JavaScript number
    holds the value exactly when there are at most fifteen digits. *)
Definition Number (digits : string) : Z :=
  fold_left (fun n c => (10 * n + (Z.of_N (N_of_ascii c) - 48))%Z)
            (list_ascii_of_string digits) 0%Z.

Definition exact (m : Match) : Prop := (String.length (group m) <= 15)%nat.

(** [.filter((devices) => devices)]: the matches that are not [null]. *)
Fixpoint truthy {A : Type} (l : list (option A)) : list A :=
  match l with
  | [] => []
  | Some x :: l' => x :: truthy l'
  | None :: l' => truthy l'
  end.

(** [getDefaultDevice]. [None] is the [TypeError] thrown by
    [iPhone[0].name] when there is no iPhone either. *)
Definition getDefaultDevice : option string :=
  let devices :=
    Array_sort (fun a b => (Number (group b) - Number (group a))%Z)
               (truthy (map (fun dimensions => match_numbered (name dimensions))
                            defaultDimensions)) in
  match devices with
  | m :: _ => Some (input m)
  | [] =>
      match iPhone with
      | first :: _ => Some (name first)
      | [] => None
      end
  end.

End Catalogue.

(** Sample catalogue. *)
Definition sample : list Dimensions :=
  [mkDimensions "iPhone 8" "iPhone";
   mkDimensions "iPad Pro (11-inch)" "iPad";
   mkDimensions "iPhone 14" "iPhone";
   mkDimensions "iPhone 13 mini" "iPhone";
   mkDimensions "iPad 14" "iPad";
   mkDimensions "iPhone SE" "iPhone"].

Definition unnumbered : list Dimensions :=
  [mkDimensions "iPad Air" "iPad";
   mkDimensions "iPhone SE" "iPhone";
   mkDimensions "iPhone X" "iPhone"].

(** A stand-in for [localeCompare]: the order of the character codes. *)
Definition by_code (a b : string) : Z :=
  match String.compare a b with
  | Lt => (-1)%Z
  | Eq => 0%Z
  | Gt => 1%Z
  end.

End Site.

(* ================================================================== *)
(** * Part II: theorems *)
(* ================================================================== *)

(** ** [JSON.stringify] loses nothing *)

Module JSONFacts.
Import JSON.

Lemma append_assoc (a b c : string) : (a ++ b) ++ c = a ++ (b ++ c).
Proof. induction a as [|x a IH]; simpl; [reflexivity | now rewrite IH]. Qed.

Lemma append_nil_r (a : string) : a ++ EmptyString = a.
Proof. induction a as [|x a IH]; simpl; [reflexivity | now rewrite IH]. Qed.

(** *** Strings *)

Lemma unquote_quote_char (c : ascii) (r : string) :
  unquote_char (quote_char c ++ r) = Some (c, r).
Proof.
  destruct c as [[] [] [] [] [] [] [] []]; reflexivity.
Qed.

Lemma unquote_dquote (r : string) : unquote_char (String dquote r) = None.
Proof. reflexivity. Qed.

Lemma quote_body_inj (s s' r r' : string) :
  quote_body s ++ String dquote r = quote_body s' ++ String dquote r' ->
  s = s' /\ r = r'.
Proof.
  revert s'. induction s as [|c s IH]; intros [|c' s'] H; simpl in H.
  - injection H as ->. auto.
  - rewrite append_assoc in H.
    apply (f_equal unquote_char) in H.
    rewrite unquote_quote_char, unquote_dquote in H. discriminate.
  - rewrite append_assoc in H.
    apply (f_equal unquote_char) in H.
    rewrite unquote_quote_char, unquote_dquote in H. discriminate.
  - rewrite !append_assoc in H.
    pose proof (f_equal unquote_char H) as Hc.
    rewrite !unquote_quote_char in Hc.
    injection Hc as -> Hrest.
    destruct (IH _ Hrest) as [-> ->]. auto.
Qed.

Lemma quote_prefix_inj (s s' r r' : string) :
  quote s ++ r = quote s' ++ r' -> s = s' /\ r = r'.
Proof.
  unfold quote. simpl. rewrite !append_assoc. simpl.
  intros H. injection H as H. now apply quote_body_inj.
Qed.

(** *** Numbers *)

Lemma span_inj (p : ascii -> bool) (s s' r r' : string) :
  all_chars p s = true -> all_chars p s' = true ->
  match r with String c _ => p c = false | EmptyString => True end ->
  match r' with String c _ => p c = false | EmptyString => True end ->
  s ++ r = s' ++ r' -> s = s' /\ r = r'.
Proof.
  revert s'. induction s as [|c s IH]; intros [|c' s'] Hs Hs' Hr Hr' H; simpl in *.
  - auto.
  - subst r. apply andb_true_iff in Hs' as [Hc _]. congruence.
  - subst r'. apply andb_true_iff in Hs as [Hc _]. congruence.
  - injection H as -> H.
    apply andb_true_iff in Hs as [_ Hs]. apply andb_true_iff in Hs' as [_ Hs'].
    destruct (IH s' Hs Hs' Hr Hr' H) as [-> ->]. auto.
Qed.

Lemma uint_chars (d : Decimal.uint) :
  all_chars is_num_char (NilEmpty.string_of_uint d) = true.
Proof. induction d; simpl; auto. Qed.

Lemma number_chars (n : Z) : all_chars is_num_char (number_to_string n) = true.
Proof.
  unfold number_to_string, NilZero.string_of_int, NilZero.string_of_uint.
  destruct (Z.to_int n) as [d|d]; destruct d; simpl; auto using uint_chars.
Qed.

Lemma number_head (n : Z) :
  exists c s, number_to_string n = String c s /\ is_num_char c = true.
Proof.
  pose proof (number_chars n) as H.
  destruct (number_to_string n) as [|c s] eqn:E.
  - unfold number_to_string, NilZero.string_of_int, NilZero.string_of_uint in E.
    destruct (Z.to_int n) as [d|d]; destruct d; discriminate.
  - simpl in H. apply andb_true_iff in H as [H _]. eauto.
Qed.

Lemma to_int_proper (n : Z) :
  Z.to_int n <> Decimal.Pos Decimal.Nil /\ Z.to_int n <> Decimal.Neg Decimal.Nil.
Proof.
  destruct n as [|p|p]; simpl; split; try discriminate;
    intros [= H]; now apply (DecimalPos.Unsigned.to_uint_nonnil p).
Qed.

Lemma number_to_string_inj (n n' : Z) :
  number_to_string n = number_to_string n' -> n = n'.
Proof.
  unfold number_to_string. intros H.
  apply (f_equal NilZero.int_of_string) in H.
  destruct (to_int_proper n) as [? ?], (to_int_proper n') as [? ?].
  rewrite !NilZero.isi in H by assumption.
  injection H as H.
  rewrite <- (DecimalZ.of_to n), <- (DecimalZ.of_to n'). now rewrite H.
Qed.

Lemma number_prefix_inj (n n' : Z) (r r' : string) :
  tail_ok r -> tail_ok r' ->
  number_to_string n ++ r = number_to_string n' ++ r' -> n = n' /\ r = r'.
Proof.
  intros Hr Hr' H.
  destruct (span_inj is_num_char _ _ _ _ (number_chars n) (number_chars n') Hr Hr' H)
    as [E ->].
  split; [now apply number_to_string_inj | reflexivity].
Qed.

(** *** Comma-separated sequences *)

Section Joined.
Variable A : Type.
Variable f : A -> string.
Variable close : ascii.
Hypothesis close_not_num : is_num_char close = false.
Hypothesis close_not_comma : close <> ","%char.
Hypothesis f_head : forall y, exists c s, f y = String c s /\ c <> close.

Lemma concat_tails (x : A) (l : list A) :
  String.concat "," (map f (x :: l)) = f x ++ tails f l.
Proof.
  revert x. induction l as [|y l IH]; intros x.
  - simpl. now rewrite append_nil_r.
  - change (String.concat "," (map f (x :: y :: l)))
      with (f x ++ "," ++ String.concat "," (map f (y :: l))).
    now rewrite IH.
Qed.

Lemma tails_tail_ok (l : list A) (r : string) : tail_ok (tails f l ++ String close r).
Proof. destruct l; simpl; [exact close_not_num | reflexivity]. Qed.

Lemma tails_inj (l : list A) :
  Forall (prefix_free f) l ->
  forall l' r r',
    tails f l ++ String close r = tails f l' ++ String close r' -> l = l' /\ r = r'.
Proof.
  induction 1 as [|x l Hx _ IH]; intros [|x' l'] r r' H; simpl in H.
  - injection H as ->. auto.
  - injection H as H _. congruence.
  - injection H as H _. congruence.
  - injection H as H. rewrite !append_assoc in H.
    destruct (Hx x' _ _ (tails_tail_ok _ _) (tails_tail_ok _ _) H) as [-> H'].
    destruct (IH _ _ _ H') as [-> ->]. auto.
Qed.

Lemma joined_inj (l : list A) :
  Forall (prefix_free f) l ->
  forall l' r r',
    String.concat "," (map f l) ++ String close r
    = String.concat "," (map f l') ++ String close r' ->
    l = l' /\ r = r'.
Proof.
  intros Hl l' r r' H.
  destruct l as [|x l], l' as [|x' l'].
  - simpl in H. injection H as ->. auto.
  - rewrite concat_tails, append_assoc in H. simpl in H.
    destruct (f_head x') as (c & s & E & Hc). rewrite E in H.
    simpl in H. injection H as H _. congruence.
  - rewrite concat_tails, append_assoc in H. simpl in H.
    destruct (f_head x) as (c & s & E & Hc). rewrite E in H.
    simpl in H. injection H as H _. congruence.
  - rewrite !concat_tails, !append_assoc in H.
    inversion Hl as [|? ? Hx Hl']; subst.
    destruct (Hx x' _ _ (tails_tail_ok _ _) (tails_tail_ok _ _) H) as [-> H'].
    destruct (tails_inj _ Hl' _ _ _ H') as [-> ->]. auto.
Qed.
End Joined.

(** *** Values *)

Lemma stringify_head (v : value) :
  exists c s, stringify v = String c s /\ c <> "]"%char.
Proof.
  destruct v as [|[]|n|s|items|props]; simpl;
    try (eexists _, _; split; [reflexivity | discriminate]).
  destruct (number_head n) as (c & s & -> & Hc).
  exists c, s. split; [reflexivity|]. intros ->. discriminate.
Qed.

Lemma member_head (kv : string * value) :
  exists c s, member_string kv = String c s /\ c <> "}"%char.
Proof. cbv [member_string quote]. simpl. eexists _, _. split; [reflexivity | discriminate]. Qed.

Lemma stringify_Array (items : list value) :
  stringify (Array items) = "[" ++ String.concat "," (map stringify items) ++ "]".
Proof. reflexivity. Qed.

Lemma stringify_Object (props : list (string * value)) :
  stringify (Object props) = "{" ++ String.concat "," (map member_string props) ++ "}".
Proof. reflexivity. Qed.

Lemma member_prefix_inj (kv kv' : string * value) (r r' : string) :
  (forall v' r r', tail_ok r -> tail_ok r' ->
     stringify (snd kv) ++ r = stringify v' ++ r' -> snd kv = v' /\ r = r') ->
  tail_ok r -> tail_ok r' ->
  member_string kv ++ r = member_string kv' ++ r' -> kv = kv' /\ r = r'.
Proof.
  destruct kv as [k v], kv' as [k' v']. unfold member_string. simpl fst; simpl snd.
  intros Hv Hr Hr' E.
  rewrite !append_assoc in E.
  destruct (quote_prefix_inj _ _ _ _ E) as [-> E'].
  cbn [append] in E'. injection E' as E'.
  destruct (Hv _ _ _ Hr Hr' E') as [-> ->]. auto.
Qed.

Ltac number_clash n H :=
  let c := fresh "c" in
  let t := fresh "t" in
  let E := fresh "E" in
  let Hc := fresh "Hc" in
  let Hh := fresh "Hh" in
  destruct (number_head n) as (c & t & E & Hc);
  simpl in H; rewrite E in H; simpl in H;
  injection H as Hh _; subst c; discriminate.

(** Two serialized values followed by admissible tails coincide only when
    the values and the tails do. *)
Lemma stringify_prefix_inj (v : value) :
  forall v' r r',
    tail_ok r -> tail_ok r' ->
    stringify v ++ r = stringify v' ++ r' -> v = v' /\ r = r'.
Proof.
  induction v as [|b|n|s|items IH|props IH] using value_induction;
    intros v' r r' Hr Hr' H.
  - destruct v' as [|[]|n'|s'|items'|props'];
      try (simpl in H; discriminate); try number_clash n' H.
    simpl in H. injection H as ->. auto.
  - destruct b, v' as [|[]|n'|s'|items'|props'];
      try (simpl in H; discriminate); try number_clash n' H;
      simpl in H; injection H as ->; auto.
  - destruct v' as [|[]|n'|s'|items'|props']; try number_clash n H.
    simpl in H. destruct (number_prefix_inj _ _ _ _ Hr Hr' H) as [-> ->]. auto.
  - destruct v' as [|[]|n'|s'|items'|props'];
      try (simpl in H; discriminate); try number_clash n' H.
    change (quote s ++ r = quote s' ++ r') in H.
    destruct (quote_prefix_inj _ _ _ _ H) as [-> ->]. auto.
  - destruct v' as [|[]|n'|s'|items'|props'];
      try (simpl in H; discriminate); try number_clash n' H.
    rewrite !stringify_Array in H. cbn [append] in H. injection H as H.
    rewrite !append_assoc in H. cbn [append] in H.
    destruct (joined_inj _ stringify "]" eq_refl ltac:(discriminate)
                stringify_head items IH _ _ _ H) as [-> ->].
    auto.
  - destruct v' as [|[]|n'|s'|items'|props'];
      try (simpl in H; discriminate); try number_clash n' H.
    rewrite !stringify_Object in H. cbn [append] in H. injection H as H.
    rewrite !append_assoc in H. cbn [append] in H.
    assert (Hm : Forall
              (fun x : string * value =>
                 forall y r0 r0', tail_ok r0 -> tail_ok r0' ->
                   member_string x ++ r0 = member_string y ++ r0' ->
                   x = y /\ r0 = r0') props).
    { eapply Forall_impl; [|exact IH].
      intros kv Hv kv' r0 r0' H0 H0' E.
      now apply (member_prefix_inj kv kv' r0 r0' Hv). }
    destruct (joined_inj _ member_string "}" eq_refl ltac:(discriminate)
                member_head props Hm _ _ _ H) as [-> ->].
    auto.
Qed.

Theorem stringify_inj (v v' : value) : stringify v = stringify v' -> v = v'.
Proof.
  intros H.
  apply (stringify_prefix_inj v v' EmptyString EmptyString I I).
  now rewrite !append_nil_r.
Qed.

End JSONFacts.

(** ** Records and their serialization *)

Module DimensionsFacts.
Import JSON JSONFacts.

Lemma property_cons_inj (k : string) (v v' : option value) (l l' : JSONObject) :
  (forall x, hd_error l <> Some (k, x)) ->
  (forall x, hd_error l' <> Some (k, x)) ->
  (property k v ++ l = property k v' ++ l')%list -> v = v' /\ l = l'.
Proof.
  intros Hl Hl' H. destruct v as [x|], v' as [x'|]; simpl in H.
  - injection H as -> ->. auto.
  - subst l'. exfalso. now apply (Hl' x).
  - subst l. exfalso. now apply (Hl x').
  - auto.
Qed.

Lemma Object_some_inj (a b : option JSONObject) :
  option_map Object a = option_map Object b -> a = b.
Proof. destruct a, b; simpl; congruence. Qed.

Ltac head_differs :=
  let x := fresh "x" in
  intros x;
  repeat match goal with
         | |- context [property _ ?v] => destruct v; simpl
         end;
  discriminate.

Lemma Dimensions_value_inj (d d' : Dimensions) :
  Dimensions_value d = Dimensions_value d' -> d = d'.
Proof.
  destruct d as [a b c e f], d' as [a' b' c' e' f'].
  unfold Dimensions_value. simpl. intros [= H].
  apply property_cons_inj in H as [-> H]; [| head_differs | head_differs].
  apply property_cons_inj in H as [Hb H]; [| head_differs | head_differs].
  apply property_cons_inj in H as [Hc H]; [| head_differs | head_differs].
  apply property_cons_inj in H as [-> H]; [| head_differs | head_differs].
  rewrite <- (app_nil_r (property "scale" f)), <- (app_nil_r (property "scale" f')) in H.
  apply property_cons_inj in H as [-> _]; [| discriminate | discriminate].
  apply Object_some_inj in Hb, Hc. now subst.
Qed.

(** Two records have the same serialization only if they are the same
    record: same values, same properties in the same order. *)
Theorem JSON_stringify_inj (d d' : Dimensions) :
  JSON_stringify d = JSON_stringify d' -> d = d'.
Proof.
  unfold JSON_stringify. intros H.
  now apply Dimensions_value_inj, stringify_inj.
Qed.

Lemma isUniqueDimensions_spec (gathered : list Dimensions) (d : Dimensions) :
  isUniqueDimensions gathered d = true <-> ~ In d gathered.
Proof.
  unfold isUniqueDimensions. rewrite negb_true_iff.
  split.
  - intros H Hin.
    assert (E : existsb (fun s => String.eqb s (JSON_stringify d))
                  (map JSON_stringify gathered) = true).
    { apply existsb_exists. exists (JSON_stringify d). split.
      - now apply in_map.
      - apply String.eqb_refl. }
    congruence.
  - intros Hnin.
    destruct (existsb _ _) eqn:E; [|reflexivity].
    apply existsb_exists in E as (s & Hs & Heq).
    apply String.eqb_eq in Heq. subst s.
    apply in_map_iff in Hs as (d0 & Hd0 & Hin).
    apply JSON_stringify_inj in Hd0. subst d0. contradiction.
Qed.


End DimensionsFacts.

(** ** Gathering without duplicates *)

Module GatherFacts.
Import DimensionsFacts.


Lemma push_unique_NoDup (g : list Dimensions) (d : Dimensions) :
  NoDup g -> NoDup (push_unique g d).
Proof.
  intros Hg. unfold push_unique. destruct (isUniqueDimensions g d) eqn:E; [|assumption].
  apply isUniqueDimensions_spec in E.
  apply (Permutation_NoDup (Permutation_cons_append g d)).
  now constructor.
Qed.

(** The two cases of the push, on the serializations the script
    compares. *)
Lemma push_unique_new (g : list Dimensions) (d : Dimensions) :
  ~ In (JSON_stringify d) (map JSON_stringify g) ->
  push_unique g d = (g ++ [d])%list.
Proof.
  intros H. unfold push_unique, isUniqueDimensions.
  destruct (existsb _ _) eqn:E; [|reflexivity].
  exfalso. apply H. apply existsb_exists in E as (s & Hs & Heq).
  apply String.eqb_eq in Heq. now subst.
Qed.

Lemma push_unique_old (g : list Dimensions) (d : Dimensions) :
  In (JSON_stringify d) (map JSON_stringify g) ->
  push_unique g d = g.
Proof.
  intros H. unfold push_unique, isUniqueDimensions.
  destruct (existsb _ _) eqn:E; [reflexivity|].
  exfalso.
  assert (E' : existsb (fun s => String.eqb s (JSON_stringify d))
                 (map JSON_stringify g) = true).
  { apply existsb_exists. exists (JSON_stringify d). split; [assumption|].
    apply String.eqb_refl. }
  congruence.
Qed.






End GatherFacts.

(** ** The stable sort *)

Module SortFacts.

Section Sort.
Variable A : Type.
Variable key : A -> Z.


Lemma sort_insert_Permutation (x : A) (l : list A) :
  Permutation (sort_insert (by_key key) x l) (x :: l).
Proof.
  induction l as [|y l IH]; simpl; [reflexivity|].
  destruct ((by_key key) x y >? 0)%Z; [|reflexivity].
  rewrite IH. apply perm_swap.
Qed.

Lemma Array_sort_Permutation (l : list A) :
  Permutation (Array_sort (by_key key) l) l.
Proof.
  induction l as [|x l IH]; simpl; [reflexivity|].
  rewrite sort_insert_Permutation. now constructor.
Qed.

Lemma sort_insert_ascending (x : A) (l : list A) :
  ascending key l -> ascending key (sort_insert (by_key key) x l).
Proof.
  unfold ascending. induction 1 as [|y l Hl IH Hy]; simpl.
  - repeat constructor.
  - unfold by_key at 1. destruct (Z.gtb_spec (key x - key y) 0).
    + constructor; [assumption|].
      apply Forall_forall. intros z Hz.
      apply (Permutation_in _ (sort_insert_Permutation x l)) in Hz.
      destruct Hz as [<-|Hz]; [lia|].
      rewrite Forall_forall in Hy. now apply Hy.
    + constructor; [now constructor|].
      constructor; [lia|].
      eapply Forall_impl; [|exact Hy]. simpl. intros; lia.
Qed.

Lemma Array_sort_ascending (l : list A) : ascending key (Array_sort (by_key key) l).
Proof.
  induction l as [|x l IH]; simpl; [constructor | now apply sort_insert_ascending].
Qed.

(** Stability: the elements of one key keep their order. *)
Lemma sort_insert_stable (k : Z) (x : A) (l : list A) :
  filter (fun a => (key a =? k)%Z) (sort_insert (by_key key) x l)
  = filter (fun a => (key a =? k)%Z) (x :: l).
Proof.
  induction l as [|y l IH]; [reflexivity|].
  simpl sort_insert. unfold by_key at 1.
  destruct (Z.gtb_spec (key x - key y) 0); [|reflexivity].
  simpl in *. rewrite IH.
  destruct (Z.eqb_spec (key x) k), (Z.eqb_spec (key y) k); try reflexivity; lia.
Qed.

Lemma Array_sort_stable (k : Z) (l : list A) :
  filter (fun a => (key a =? k)%Z) (Array_sort (by_key key) l)
  = filter (fun a => (key a =? k)%Z) l.
Proof.
  induction l as [|x l IH]; [reflexivity|].
  simpl Array_sort. rewrite sort_insert_stable. simpl. now rewrite IH.
Qed.



End Sort.

End SortFacts.

(** ** The assembled dataset *)

Module AssemblerFacts.
Import GatherFacts SortFacts.




Lemma DatasetAssembler_ascending (host : Host) (l : list Dimensions) :
  ascending (getHashCode host) (DatasetAssembler host l).
Proof. apply Array_sort_ascending. Qed.

End AssemblerFacts.

(** ** The loop over the attachments and the parsing task *)

Module ParsingFacts.

Lemma parse_attachments_readable (l : list ExtractedDimensions) :
  forall s w,
    fst (parse_attachments (map inr l) s w)
    = inr (fold_left (fun s a => assign a s) l s).
Proof.
  induction l as [|a l IH]; intros s w; simpl; [reflexivity | apply IH].
Qed.

Lemma parse_attachments_durable (files : list (Error + ExtractedDimensions)) :
  forall s w,
    durable (snd (parse_attachments files s w)) = durable w
    /\ derived_data (snd (parse_attachments files s w)) = derived_data w
    /\ filter is_trash (effects (snd (parse_attachments files s w)))
       = filter is_trash (effects w).
Proof.
  induction files as [|[e|a] files IH]; intros s w; simpl.
  - auto.
  - unfold durable. simpl. rewrite !filter_app. simpl. rewrite !app_nil_r. auto.
  - destruct (IH (assign a s) (perform GetJSON w)) as (H1 & H2 & H3).
    rewrite H1, H2, H3. unfold durable. simpl.
    rewrite !filter_app. simpl. rewrite !app_nil_r. auto.
Qed.

Lemma assign_fields (a : ExtractedDimensions) (s : Dimensions) :
  device (assign a s) = get "device" a
  /\ scale (assign a s) = get "scale" a
  /\ radius (assign a s) = get "radius" a.
Proof. unfold assign. destruct (is_portrait _); simpl; auto. Qed.

Lemma assign_portrait (a : ExtractedDimensions) (s : Dimensions) :
  is_portrait (get "orientation" a) = true ->
  portrait (assign a s) = Some (payload a) /\ landscape (assign a s) = landscape s.
Proof. unfold assign. intros ->. simpl. auto. Qed.

Lemma assign_landscape (a : ExtractedDimensions) (s : Dimensions) :
  is_portrait (get "orientation" a) = false ->
  landscape (assign a s) = Some (payload a) /\ portrait (assign a s) = portrait s.
Proof. unfold assign. intros ->. simpl. auto. Qed.

Lemma is_portrait_false (o : option JSON.value) :
  o <> Some (JSON.Str "portrait") -> is_portrait o = false.
Proof.
  intros H. destruct o as [[| | |s| |]|]; simpl; try reflexivity.
  destruct (String.eqb_spec s "portrait"); [subst; contradiction | reflexivity].
Qed.

(** What the parsing task leaves when [xcparse] succeeds and every
    attachment can be read. *)
Lemma parsing_readable (host : Host) (d : SimulatorDevice)
    (l : list ExtractedDimensions) (context : Context) (w : World) :
  xcparse (simulate host (name d)) (hd_error (xcresult (simulate host (name d)))) = None ->
  attachments (simulate host (name d)) = map inr l ->
  fst (parsing_extracted_dimensions host d (context, w)) = inr tt
  /\ fst (snd (parsing_extracted_dimensions host d (context, w)))
     = mkContext (devices context)
                 (push_unique (dimensions context) (assemble l))
                 (platform context).
Proof.
  intros Hx Ha. unfold parsing_extracted_dimensions. rewrite Hx, Ha.
  match goal with
  | |- context [parse_attachments ?f ?s ?w0] =>
      pose proof (parse_attachments_readable l s w0) as E;
      destruct (parse_attachments f s w0) as [[e|r] w4]
  end; simpl in E; [discriminate|].
  injection E as ->. simpl. auto.
Qed.

Lemma assemble_snoc (l : list ExtractedDimensions) (a : ExtractedDimensions) :
  assemble (l ++ [a]) = assign a (assemble l).
Proof. unfold assemble. now rewrite fold_left_app. Qed.

(** Attachments of one orientation never touch the other slot. *)
Lemma fold_one_orientation (b : bool) (l : list ExtractedDimensions) :
  Forall (fun a => is_portrait (get "orientation" a) = b) l ->
  forall s,
    if b
    then landscape (fold_left (fun s a => assign a s) l s) = landscape s
    else portrait (fold_left (fun s a => assign a s) l s) = portrait s.
Proof.
  induction 1 as [|a l Ha _ IH]; intros s; simpl.
  - now destruct b.
  - specialize (IH (assign a s)). destruct b.
    + rewrite IH. now apply assign_portrait.
    + rewrite IH. now apply assign_landscape.
Qed.

End ParsingFacts.

(** ** Task lists *)

Module ListrFacts.

(** A property of the state that every task of a list keeps, whatever
    its outcome, is kept by the list. *)
Lemma Listr_preserves (P : State -> Prop) (tasks : list Task) :
  Forall (fun task : Task => forall st, P st -> P (snd (task st))) tasks ->
  forall st, P st -> P (snd (Listr tasks st)).
Proof.
  induction 1 as [|task tasks Ht _ IH]; intros st Hst; simpl; [assumption|].
  specialize (Ht st Hst).
  destruct (task st) as [[e|[]] st']; simpl in *; [assumption | now apply IH].
Qed.

End ListrFacts.

(** ** The tasks of the script *)

Module ScriptFacts.
Import GatherFacts SortFacts ParsingFacts ListrFacts.

Lemma durable_perform (e : Effect) (w : World) :
  is_write e = false -> durable (perform e w) = durable w.
Proof.
  intros H. unfold durable. simpl. rewrite filter_app. simpl. rewrite H.
  now rewrite app_nil_r.
Qed.

Lemma Listr_app (l1 l2 : list Task) (st : State) :
  Listr (l1 ++ l2) st
  = match Listr l1 st with
    | (inl error, st') => (inl error, st')
    | (inr _, st') => Listr l2 st'
    end.
Proof.
  revert st. induction l1 as [|task l1 IH]; intros st; simpl; [reflexivity|].
  destruct (task st) as [[e|[]] st']; [reflexivity | apply IH].
Qed.

Section Host.
Variable host : Host.

(** The context after the parsing task: as before, or with one record
    pushed unless an equal one was there. *)
Lemma parsing_context (d : SimulatorDevice) (context : Context) (w : World) :
  fst (snd (parsing_extracted_dimensions host d (context, w))) = context
  \/ exists record,
       fst (snd (parsing_extracted_dimensions host d (context, w)))
       = mkContext (devices context)
                   (push_unique (dimensions context) record)
                   (platform context).
Proof.
  unfold parsing_extracted_dimensions.
  destruct (xcparse _ _); [now left|].
  destruct (parse_attachments _ _ _) as [[e|record] w4]; simpl; [now left|].
  right. now exists record.
Qed.

Lemma parsing_durable (d : SimulatorDevice) (st : State) :
  durable (snd (snd (parsing_extracted_dimensions host d st))) = durable (snd st).
Proof.
  destruct st as [context w]. unfold parsing_extracted_dimensions.
  destruct (xcparse _ _).
  - simpl. now rewrite !durable_perform.
  - match goal with
    | |- context [parse_attachments ?f ?s ?w0] =>
        destruct (parse_attachments_durable f s w0) as (H & _ & _);
        destruct (parse_attachments f s w0) as [[e|record] w4]
    end; simpl in *; rewrite H; now rewrite !durable_perform.
Qed.

Lemma extracting_durable (d : SimulatorDevice) (st : State) :
  durable (snd (snd (extracting_dimensions host d st))) = durable (snd st).
Proof.
  destruct st as [context w]. unfold extracting_dimensions.
  destruct (xcodebuild _); simpl; unfold durable; simpl;
    rewrite filter_app; simpl; now rewrite app_nil_r.
Qed.

Lemma cleaning_durable (st : State) :
  durable (snd (snd (cleaning_up_extraction_cache st))) = durable (snd st).
Proof.
  destruct st as [context w]. unfold durable. simpl.
  rewrite filter_app. simpl. now rewrite app_nil_r.
Qed.

Lemma device_task_durable (k : option Written * option Written * list Effect)
    (d : SimulatorDevice) (st : State) :
  durable (snd st) = k -> durable (snd (snd (device_task host d st))) = k.
Proof.
  unfold device_task.
  apply (Listr_preserves (fun st => durable (snd st) = k)).
  repeat constructor; intros st0 <-.
  - apply extracting_durable.
  - apply parsing_durable.
  - apply cleaning_durable.
Qed.

Lemma device_task_NoDup (d : SimulatorDevice) (st : State) :
  NoDup (dimensions (fst st)) ->
  NoDup (dimensions (fst (snd (device_task host d st)))).
Proof.
  unfold device_task.
  apply (Listr_preserves (fun st => NoDup (dimensions (fst st)))).
  repeat constructor; intros [context w] H; simpl in H.
  - unfold extracting_dimensions. now destruct (xcodebuild _).
  - destruct (parsing_context d context w) as [->|[record ->]]; [assumption|].
    simpl. now apply push_unique_NoDup.
  - assumption.
Qed.

Lemma gathering_dimensions_NoDup (st : State) :
  NoDup (dimensions (fst (snd (gathering_dimensions host st)))).
Proof.
  destruct st as [context w]. unfold gathering_dimensions.
  apply (Listr_preserves (fun st => NoDup (dimensions (fst st)))).
  - apply Forall_forall. intros task Htask.
    apply in_map_iff in Htask as (d & <- & _).
    intros st. apply device_task_NoDup.
  - simpl. constructor.
Qed.

Lemma gathering_dimensions_durable (st : State) :
  durable (snd (snd (gathering_dimensions host st))) = durable (snd st).
Proof.
  destruct st as [context w]. unfold gathering_dimensions.
  apply (Listr_preserves (fun st => durable (snd st) = durable w)).
  - apply Forall_forall. intros task Htask.
    apply in_map_iff in Htask as (d & <- & _).
    intros st. apply device_task_durable.
  - reflexivity.
Qed.

Lemma gathering_devices_durable (st : State) :
  durable (snd (snd (gathering_devices host st))) = durable (snd st).
Proof.
  destruct st as [context w]. unfold gathering_devices.
  destruct (getDevices host) as [e|[found version]]; simpl;
    now rewrite durable_perform.
Qed.

Lemma verifying_requirements_state (st : State) :
  snd (verifying_requirements host st) = st.
Proof.
  unfold verifying_requirements.
  repeat match goal with |- context [if ?b then _ else _] => destruct b end;
    reflexivity.
Qed.

Lemma verifying_requirements_silent (st : State) (e : Error) :
  fst (verifying_requirements host st) = inl e -> isSilentError e = true.
Proof.
  unfold verifying_requirements.
  repeat match goal with |- context [if ?b then _ else _] => destruct b end;
    simpl; intros [= <-]; reflexivity.
Qed.

Lemma sorting_dimensions_spec (context : Context) (w : World) :
  sorting_dimensions host (context, w)
  = (inr tt,
     (mkContext (devices context)
                (Array_sort (by_hash_code host) (dimensions context))
                (platform context), w)).
Proof. reflexivity. Qed.

(** The four tasks before "Generating files" write nothing. *)
Lemma before_generating_files_durable (st : State) :
  durable (snd (snd (Listr [verifying_requirements host;
                            gathering_devices host;
                            gathering_dimensions host;
                            sorting_dimensions host] st)))
  = durable (snd st).
Proof.
  apply (Listr_preserves (fun st0 => durable (snd st0) = durable (snd st)));
    [|reflexivity].
  repeat constructor; intros st0 <-.
  - now rewrite verifying_requirements_state.
  - apply gathering_devices_durable.
  - apply gathering_dimensions_durable.
  - now destruct st0.
Qed.


(** A device whose toolchain run goes through, with the attachments
    [files]. *)
Lemma device_task_clean (d : SimulatorDevice) (files : list ExtractedDimensions)
    (context : Context) (w : World) :
  xcodebuild (simulate host (name d)) = Built ->
  xcparse (simulate host (name d)) (hd_error (xcresult (simulate host (name d)))) = None ->
  attachments (simulate host (name d)) = map inr files ->
  exists w',
    device_task host d (context, w)
    = (inr tt,
       (mkContext (devices context)
                  (push_unique (dimensions context) (assemble files))
                  (platform context), w')).
Proof.
  intros Hb Hx Ha. unfold device_task. cbn [Listr].
  unfold extracting_dimensions. rewrite Hb.
  match goal with
  | |- context [parsing_extracted_dimensions host d (context, ?w0)] =>
      destruct (parsing_readable host d files context w0 Hx Ha) as [H1 H2];
      destruct (parsing_extracted_dimensions host d (context, w0)) as [r [c w1]]
  end.
  simpl in H1, H2. subst r c. simpl. eauto.
Qed.

(** When every run goes through, the tasks of the devices leave the
    records of the devices, gathered in the order of the devices. *)
Lemma device_tasks_gather (files : string -> list ExtractedDimensions)
    (found : list SimulatorDevice) (version : string) (ds : list SimulatorDevice) :
  (forall d, In d ds ->
     xcodebuild (simulate host (name d)) = Built
     /\ xcparse (simulate host (name d))
          (hd_error (xcresult (simulate host (name d)))) = None
     /\ attachments (simulate host (name d)) = map inr (files (name d))) ->
  forall acc w,
  exists w',
    Listr (map (device_task host) ds) (mkContext found acc version, w)
    = (inr tt,
       (mkContext found
                  (fold_left push_unique
                     (map (fun d => assemble (files (name d))) ds) acc)
                  version, w')).
Proof.
  induction ds as [|d ds IH]; intros Hclean acc w.
  - simpl. eauto.
  - destruct (Hclean d (or_introl eq_refl)) as (Hb & Hx & Ha).
    destruct (device_task_clean d (files (name d))
                (mkContext found acc version) w Hb Hx Ha) as [w1 E].
    cbn [map Listr]. rewrite E. simpl fold_left.
    apply IH. intros x Hin. apply Hclean. now right.
Qed.

Lemma gathering_dimensions_gathers (files : string -> list ExtractedDimensions)
    (context : Context) (w : World) :
  (forall d, In d (devices context) ->
     xcodebuild (simulate host (name d)) = Built
     /\ xcparse (simulate host (name d))
          (hd_error (xcresult (simulate host (name d)))) = None
     /\ attachments (simulate host (name d)) = map inr (files (name d))) ->
  exists w',
    gathering_dimensions host (context, w)
    = (inr tt,
       (mkContext (devices context)
                  (gather (map (fun d => assemble (files (name d))) (devices context)))
                  (platform context), w')).
Proof.
  intros Hclean. unfold gathering_dimensions, gather.
  now apply device_tasks_gather.
Qed.

(** A run in which everything goes through writes the assembled dataset
    of the records of the devices. *)
Lemma run_writes_assembled_dataset (files : string -> list ExtractedDimensions)
    (found : list SimulatorDevice) (version : string) (w : World) :
  fst (verifying_requirements host (empty_context, w)) = inr tt ->
  getDevices host = inr (found, version) ->
  (forall d, In d found ->
     xcodebuild (simulate host (name d)) = Built
     /\ xcparse (simulate host (name d))
          (hd_error (xcresult (simulate host (name d)))) = None
     /\ attachments (simulate host (name d)) = map inr (files (name d))) ->
  writeJSON_error host DIMENSIONS = None ->
  writeJSON_error host LOGS = None ->
  dimensions_json (run host w)
  = Some (DimensionsFile
            (DatasetAssembler host (map (fun d => assemble (files (name d))) found)))
  /\ logs_json (run host w) = Some (LogsFile version).
Proof.
  intros Hv Hg Hclean Hw1 Hw2.
  assert (E : exists context w',
             Listr (tasks host) (empty_context, w) = (inr tt, (context, w'))
             /\ dimensions_json w'
                = Some (DimensionsFile
                          (DatasetAssembler host
                             (map (fun d => assemble (files (name d))) found)))
             /\ logs_json w' = Some (LogsFile version)).
  { unfold tasks. cbn [Listr].
    pose proof (verifying_requirements_state (empty_context, w)) as Hs.
    destruct (verifying_requirements host (empty_context, w)) as [r st0].
    simpl in Hv, Hs. subst r st0.
    unfold gathering_devices. cbn match. rewrite Hg.
    destruct (gathering_dimensions_gathers files
                (mkContext found (dimensions empty_context) version)
                (perform CallGetDevices w) Hclean) as [w1 E].
    rewrite E. cbn [devices platform dimensions].
    rewrite sorting_dimensions_spec.
    unfold generating_files, writeJSON. rewrite Hw1, Hw2.
    simpl. eauto. }
  destruct E as (context & w' & E & H1 & H2).
  unfold run. rewrite E. auto.
Qed.

End Host.

End ScriptFacts.

(* ================================================================== *)
(** * Part III: the claims *)
(* ================================================================== *)

Import JSON DimensionsFacts GatherFacts SortFacts AssemblerFacts ParsingFacts.
Import ListrFacts ScriptFacts.

(** ** The model on concrete inputs *)

Example stringify_array :
  stringify (Array [Number 390; Number (-20); Number 0; Null; Bool true; Array []])
  = "[390,-20,0,null,true,[]]".
Proof. reflexivity. Qed.

Example stringify_object :
  stringify (Object [Sample.screen 390 844])
  = "{" ++ quote "screen" ++ ":{" ++ quote "width" ++ ":390,"
        ++ quote "height" ++ ":844}}".
Proof. reflexivity. Qed.

Example stringify_unassigned :
  JSON_stringify unassigned = "{}".
Proof. reflexivity. Qed.

Example quote_control_characters :
  quote (String "010"%char (String "001"%char "a"))
  = String dquote (String bslash ("n" ++ String bslash ("u0001a" ++ String dquote EmptyString))).
Proof. reflexivity. Qed.

(** The first scenario of the spec: one device, a portrait and a
    landscape attachment, one record. *)
Example one_device_one_record :
  dimensions_json
    (run (Sample.mac Sample.length_hash
            (Sample.clean_run [Sample.iPhone_portrait; Sample.iPhone_landscape]))
         Sample.fresh)
  = Some (DimensionsFile
            [mkDimensions (Some (Str "iPhone"))
                          (Some [Sample.screen 844 390])
                          (Some [Sample.screen 390 844])
                          (Some (Number 0))
                          (Some (Number 3))]).
Proof. vm_compute. reflexivity. Qed.

(** Two devices with the same attachments: one record. *)
Example same_record_twice :
  gather [Sample.radius_0; Sample.radius_6; Sample.radius_0]
  = [Sample.radius_0; Sample.radius_6].
Proof. vm_compute. reflexivity. Qed.

Example sort_is_stable :
  Array_sort (by_key (fun n => n / 10)%Z) [31; 12; 35; 11; 30]%Z
  = [12; 11; 31; 35; 30]%Z.
Proof. reflexivity. Qed.

(** ** The dataset: gathering and sorting *)

(** Two distinct records of one hash code come out of the assembler in
    the order they went in: the sort is stable and has no second key. *)
Lemma equal_hash_keeps_discovery_order (host : Host) (a b : Dimensions) :
  a <> b -> getHashCode host a = getHashCode host b ->
  DatasetAssembler host [a; b] = [a; b].
Proof.
  intros Hab Hh.
  assert (Hg : gather [a; b] = [a; b]).
  { unfold gather. simpl. unfold push_unique at 2. simpl.
    assert (E : isUniqueDimensions [a] b = true).
    { apply isUniqueDimensions_spec. simpl. intuition. }
    unfold push_unique. now rewrite E. }
  unfold DatasetAssembler. rewrite Hg. simpl.
  unfold by_hash_code, by_key. rewrite Hh, Z.sub_diag. reflexivity.
Qed.






(** ** Records that differ in [radius] only *)

Module DoublesFacts.







End DoublesFacts.




(** ** The loop over the attachments *)

(** C8: after the loop over a non-empty sequence of attachments, [device],
    [scale] and [radius] are those of the last attachment, whatever the
    orientations. *)
Theorem last_write_wins (l : list ExtractedDimensions) (w : World) :
  l <> [] ->
  fst (parse_attachments (map inr l) unassigned w) = inr (assemble l)
  /\ device (assemble l) = get "device" (last l [])
  /\ scale (assemble l) = get "scale" (last l [])
  /\ radius (assemble l) = get "radius" (last l []).
Proof.
  intros Hl. split; [apply parse_attachments_readable|].
  destruct (exists_last Hl) as (l' & a & ->).
  rewrite last_last, assemble_snoc. apply assign_fields.
Qed.

Lemma last_write_wins_witness :
  fst (parse_attachments
         (map inr [Sample.attachment "landscape" 6 844 390; Sample.iPhone_portrait])
         unassigned Sample.fresh)
  = inr (assemble [Sample.attachment "landscape" 6 844 390; Sample.iPhone_portrait])
  /\ device (assemble [Sample.attachment "landscape" 6 844 390; Sample.iPhone_portrait])
     = Some (Str "iPhone")
  /\ scale (assemble [Sample.attachment "landscape" 6 844 390; Sample.iPhone_portrait])
     = Some (Number 3)
  /\ radius (assemble [Sample.attachment "landscape" 6 844 390; Sample.iPhone_portrait])
     = Some (Number 0).
Proof.
  apply (last_write_wins
           [Sample.attachment "landscape" 6 844 390; Sample.iPhone_portrait]
           Sample.fresh).
  discriminate.
Defined.

(** C5, as stated, fails: an attachment whose orientation is ["faceUp"]
    is read and assigned to the landscape slot; nothing is thrown. *)
Lemma faceUp_is_accepted :
  fst (parse_attachments [inr Sample.iPhone_faceUp] unassigned Sample.fresh)
  = inr (mkDimensions (Some (Str "iPhone"))
                      (Some [Sample.screen 390 844])
                      None
                      (Some (Number 0))
                      (Some (Number 3))).
Proof. reflexivity. Qed.

(** C5, amended: an attachment whose orientation is not ["portrait"], in
    particular one whose orientation is neither ["portrait"] nor
    ["landscape"], is accepted: its payload goes to the landscape slot and
    the loop goes on with the next attachment. *)
Theorem other_orientation_goes_to_landscape (a : ExtractedDimensions)
    (files : list (Error + ExtractedDimensions)) (s : Dimensions) (w : World) :
  get "orientation" a <> Some (Str "portrait") ->
  parse_attachments (inr a :: files) s w
  = parse_attachments files
      (mkDimensions (get "device" a) (Some (payload a)) (portrait s)
                    (get "radius" a) (get "scale" a))
      (perform GetJSON w).
Proof.
  intros H. simpl. unfold assign. now rewrite (is_portrait_false _ H).
Qed.

Lemma other_orientation_goes_to_landscape_witness :
  parse_attachments [inr Sample.iPhone_faceUp] unassigned Sample.fresh
  = parse_attachments []
      (mkDimensions (get "device" Sample.iPhone_faceUp)
                    (Some (payload Sample.iPhone_faceUp)) (portrait unassigned)
                    (get "radius" Sample.iPhone_faceUp)
                    (get "scale" Sample.iPhone_faceUp))
      (perform GetJSON Sample.fresh).
Proof.
  apply other_orientation_goes_to_landscape.
  vm_compute. discriminate.
Defined.

(** ** The parsing task *)

(** C2, as stated, fails: with a portrait attachment alone the parsing
    task ends normally and gathers a record without [landscape], which a
    full run then writes to the dataset file. *)
Lemma portrait_only_is_gathered :
  fst (parsing_extracted_dimensions
         (Sample.mac Sample.length_hash (Sample.clean_run [Sample.iPhone_portrait]))
         Sample.iPhone_14 (empty_context, Sample.fresh))
  = inr tt
  /\ dimensions_json
       (run (Sample.mac Sample.length_hash (Sample.clean_run [Sample.iPhone_portrait]))
            Sample.fresh)
     = Some (DimensionsFile
               [mkDimensions (Some (Str "iPhone"))
                             None
                             (Some [Sample.screen 390 844])
                             (Some (Number 0))
                             (Some (Number 3))]).
Proof. split; vm_compute; reflexivity. Qed.

(** C2, amended: when every attachment of a device is a portrait one (or
    none is), the parsing task raises no error; it builds a record whose
    landscape slot (or portrait slot) is [undefined], appends it at the end
    of the gathered records when none of them has the same serialization,
    and leaves the context as it was otherwise. *)
Theorem one_orientation_only (host : Host) (d : SimulatorDevice)
    (l : list ExtractedDimensions) (b : bool) (context : Context) (w : World) :
  xcparse (simulate host (name d)) (hd_error (xcresult (simulate host (name d)))) = None ->
  attachments (simulate host (name d)) = map inr l ->
  l <> [] ->
  Forall (fun a => is_portrait (get "orientation" a) = b) l ->
  fst (parsing_extracted_dimensions host d (context, w)) = inr tt
  /\ (if b
      then portrait (assemble l) = Some (payload (last l []))
           /\ landscape (assemble l) = None
      else landscape (assemble l) = Some (payload (last l []))
           /\ portrait (assemble l) = None)
  /\ (~ In (JSON_stringify (assemble l)) (map JSON_stringify (dimensions context)) ->
      fst (snd (parsing_extracted_dimensions host d (context, w)))
      = mkContext (devices context)
                  (dimensions context ++ [assemble l])
                  (platform context))
  /\ (In (JSON_stringify (assemble l)) (map JSON_stringify (dimensions context)) ->
      fst (snd (parsing_extracted_dimensions host d (context, w))) = context).
Proof.
  intros Hx Ha Hl Hall.
  destruct (parsing_readable host d l context w Hx Ha) as [H1 H2].
  split; [assumption|]. split.
  - pose proof (fold_one_orientation b l Hall unassigned) as Hother.
    destruct (exists_last Hl) as (l' & a & ->).
    apply Forall_app in Hall as [_ Hlast]. inversion Hlast as [|? ? Hb _]; subst.
    rewrite last_last, assemble_snoc.
    fold (assemble (l' ++ [a])) in Hother. rewrite assemble_snoc in Hother.
    destruct (is_portrait (get "orientation" a)) eqn:E.
    + split; [now apply assign_portrait | exact Hother].
    + split; [now apply assign_landscape | exact Hother].
  - rewrite H2. split; intros Hin.
    + now rewrite (push_unique_new _ _ Hin).
    + rewrite (push_unique_old _ _ Hin). now destruct context.
Qed.

Lemma one_orientation_only_witness :
  fst (parsing_extracted_dimensions
         (Sample.mac Sample.length_hash (Sample.clean_run [Sample.iPhone_portrait]))
         Sample.iPhone_14
         (mkContext [Sample.iPhone_14] [Sample.radius_6] "16.0", Sample.fresh))
  = inr tt
  /\ landscape (assemble [Sample.iPhone_portrait]) = None
  /\ fst (snd (parsing_extracted_dimensions
                 (Sample.mac Sample.length_hash (Sample.clean_run [Sample.iPhone_portrait]))
                 Sample.iPhone_14
                 (mkContext [Sample.iPhone_14] [Sample.radius_6] "16.0", Sample.fresh)))
     = mkContext [Sample.iPhone_14]
                 [Sample.radius_6; assemble [Sample.iPhone_portrait]]
                 "16.0".
Proof.
  destruct (one_orientation_only
              (Sample.mac Sample.length_hash (Sample.clean_run [Sample.iPhone_portrait]))
              Sample.iPhone_14 [Sample.iPhone_portrait] true
              (mkContext [Sample.iPhone_14] [Sample.radius_6] "16.0") Sample.fresh)
    as (H1 & (_ & H2) & H3 & _).
  - reflexivity.
  - reflexivity.
  - discriminate.
  - repeat constructor.
  - split; [exact H1|]. split; [exact H2|].
    apply H3. vm_compute. intros [E|[]]. discriminate E.
Defined.



(** ** The task list of one device *)

(** C3, as stated, fails: when the build succeeds and [xcparse] then
    exits with an error, the list of the device ends there and
    [DERIVED_DATA] is still in place. *)
Lemma derived_data_left_behind :
  fst (device_task (Sample.mac Sample.length_hash Sample.xcparse_fails)
         Sample.iPhone_14 (empty_context, Sample.fresh))
  = inl (OtherError "Command failed: xcparse")
  /\ derived_data
       (snd (snd (device_task (Sample.mac Sample.length_hash Sample.xcparse_fails)
                    Sample.iPhone_14 (empty_context, Sample.fresh))))
     = true.
Proof. split; reflexivity. Qed.

(** C3, amended: when the build, the location of the bundle, the
    extraction and the parsing all succeed, [DERIVED_DATA] is removed by
    the time the list of the device ends. When one of them fails the list
    ends with that failure and removes nothing; after a successful build
    [DERIVED_DATA] is then still in place. *)
Theorem cleanup_after_success (host : Host) (d : SimulatorDevice)
    (st st' : State) (outcome : Error + unit) :
  device_task host d st = (outcome, st') ->
  (outcome = inr tt -> derived_data (snd st') = false)
  /\ (forall e, outcome = inl e ->
        filter is_trash (effects (snd st')) = filter is_trash (effects (snd st))
        /\ (xcodebuild (simulate host (name d)) = Built ->
            derived_data (snd st') = true)).
Proof.
  destruct st as [context w]. unfold device_task. cbn [Listr].
  unfold extracting_dimensions.
  destruct (xcodebuild (simulate host (name d))) as [|eb remains] eqn:Eb.
  - unfold parsing_extracted_dimensions.
    destruct (xcparse _ _) as [ex|].
    + intros [= <- <-]. split; [discriminate|].
      intros e _. simpl. rewrite !filter_app. simpl. rewrite !app_nil_r. auto.
    + match goal with
      | |- context [parse_attachments ?f ?s ?w0] =>
          destruct (parse_attachments_durable f s w0) as (_ & Hd & Ht);
          destruct (parse_attachments f s w0) as [[e|record] w4]
      end; simpl in Hd, Ht.
      * intros [= <- <-]. split; [discriminate|].
        intros e0 _. simpl. rewrite Hd, Ht.
        rewrite !filter_app. simpl. rewrite !app_nil_r. auto.
      * unfold cleaning_up_extraction_cache.
        intros [= <- <-]. split; [reflexivity|]. intros e0 [=].
  - intros [= <- <-]. split; [discriminate|].
    intros e _. simpl. rewrite filter_app. simpl. rewrite app_nil_r.
    split; [reflexivity | discriminate].
Qed.

Lemma cleanup_after_success_witness :
  derived_data
    (snd (snd (device_task
                 (Sample.mac Sample.length_hash
                    (Sample.clean_run [Sample.iPhone_portrait; Sample.iPhone_landscape]))
                 Sample.iPhone_14 (empty_context, Sample.fresh))))
  = false.
Proof.
  refine (proj1 (cleanup_after_success
                   (Sample.mac Sample.length_hash
                      (Sample.clean_run [Sample.iPhone_portrait; Sample.iPhone_landscape]))
                   Sample.iPhone_14 (empty_context, Sample.fresh) _ (inr tt) _) eq_refl).
  vm_compute. reflexivity.
Defined.

(** ** The whole run *)

(** C6: the script does not do what the claim says for a missing Xcode,
    xcodebuild or xcparse. On a Mac "Verifying requirements" ends normally
    whatever [app-exists] and [command-exists] find: the script negates the
    promises they return instead of awaiting them, and a promise is truthy.
    The run then goes on to the devices, and where the rest goes through it
    writes both files. *)
Theorem missing_tools_are_not_detected (host : Host) (st : State) :
  isMacOS host = true ->
  verifying_requirements host st = (inr tt, st).
Proof.
  intros H. unfold verifying_requirements. rewrite H. reflexivity.
Qed.

Lemma missing_tools_are_not_detected_witness :
  verifying_requirements Sample.no_Xcode (empty_context, Sample.fresh)
  = (inr tt, (empty_context, Sample.fresh))
  /\ filter is_build (effects (run Sample.no_Xcode Sample.fresh))
     = [RunXcodebuild "platform=iOS Simulator,name=iPhone 14"]
  /\ dimensions_json (run Sample.no_Xcode Sample.fresh)
     = Some (DimensionsFile [Sample.radius_0])
  /\ logs_json (run Sample.no_Xcode Sample.fresh) = Some (LogsFile "16.0").
Proof.
  split.
  - apply (missing_tools_are_not_detected Sample.no_Xcode (empty_context, Sample.fresh)).
    reflexivity.
  - repeat split; vm_compute; reflexivity.
Defined.

(** What does hold of the run: when "Verifying requirements" throws, as
    it does away from a Mac, the run ends there with a silent error and
    the world is exactly as it was: no command run, no file written. In
    every run, the four tasks before "Generating files" leave both files
    and the sequence of writes as they were, so a run that changed them
    went through all four. *)
Theorem writes_only_when_generating_files (host : Host) (w : World) :
  (forall e,
      fst (verifying_requirements host (empty_context, w)) = inl e ->
      Listr (tasks host) (empty_context, w) = (inl e, (empty_context, w))
      /\ isSilentError e = true
      /\ run host w = w)
  /\ durable (snd (snd (Listr [verifying_requirements host;
                               gathering_devices host;
                               gathering_dimensions host;
                               sorting_dimensions host] (empty_context, w))))
     = durable w
  /\ (durable (run host w) <> durable w ->
      exists st,
        Listr [verifying_requirements host;
               gathering_devices host;
               gathering_dimensions host;
               sorting_dimensions host] (empty_context, w) = (inr tt, st)).
Proof.
  split; [|split].
  - intros e He.
    pose proof (verifying_requirements_state host (empty_context, w)) as Hs.
    pose proof (verifying_requirements_silent host _ _ He) as Hsilent.
    unfold run, tasks. cbn [Listr].
    destruct (verifying_requirements host (empty_context, w)) as [r st'].
    simpl in He, Hs. subst r st'.
    unfold handler. rewrite Hsilent. auto.
  - apply (before_generating_files_durable host (empty_context, w)).
  - intros Hchanged.
    pose proof (before_generating_files_durable host (empty_context, w)) as Hd.
    unfold run in Hchanged.
    change (tasks host)
      with ([verifying_requirements host; gathering_devices host;
             gathering_dimensions host; sorting_dimensions host]
              ++ [generating_files host])%list in Hchanged.
    rewrite Listr_app in Hchanged.
    destruct (Listr [verifying_requirements host; gathering_devices host;
                     gathering_dimensions host; sorting_dimensions host]
                (empty_context, w)) as [[e|[]] [c w']].
    + exfalso. apply Hchanged. simpl in Hd. rewrite <- Hd.
      unfold handler. destruct (isSilentError e); [reflexivity|].
      now apply durable_perform.
    + eauto.
Qed.

Lemma writes_only_when_generating_files_witness :
  Listr (tasks Sample.linux) (empty_context, Sample.fresh)
  = (inl (SilentError "Xcode is only available on macOS."),
     (empty_context, Sample.fresh))
  /\ run Sample.linux Sample.fresh = Sample.fresh.
Proof.
  destruct (proj1 (writes_only_when_generating_files Sample.linux Sample.fresh)
              (SilentError "Xcode is only available on macOS.")
              eq_refl) as (H1 & _ & H2).
  split; [exact H1 | exact H2].
Defined.

(** C7: when the run is rejected with a silent error, the handler
    returns without reporting anything; with any other error, it passes
    the error itself to [console.error]. *)
Theorem silent_errors_are_not_reported (host : Host) (w : World)
    (error : Error) (st' : State) :
  Listr (tasks host) (empty_context, w) = (inl error, st') ->
  (isSilentError error = true -> run host w = snd st')
  /\ (isSilentError error = false ->
      run host w = perform (ConsoleError error) (snd st')
      /\ effects (run host w) = (effects (snd st') ++ [ConsoleError error])%list).
Proof.
  intros H. unfold run. rewrite H. destruct st' as [context w'].
  unfold handler. split; intros ->; simpl; auto.
Qed.

Lemma silent_errors_are_not_reported_witness :
  run Sample.linux Sample.fresh = Sample.fresh
  /\ effects (run (Sample.mac Sample.length_hash Sample.xcparse_fails) Sample.fresh)
     = [CallGetDevices;
        RunXcodebuild "platform=iOS Simulator,name=iPhone 14";
        Globby "/tmp/com.marcbouchenoire.dimensions/Logs/Test/*.xcresult";
        RunXcparse
          (Some "/tmp/com.marcbouchenoire.dimensions/Logs/Test/Test-dimensions.xcresult");
        ConsoleError (OtherError "Command failed: xcparse")].
Proof.
  split.
  - exact (proj1 (silent_errors_are_not_reported Sample.linux Sample.fresh
                    (SilentError "Xcode is only available on macOS.")
                    (empty_context, Sample.fresh) eq_refl) eq_refl).
  - exact (proj2 (proj2 (silent_errors_are_not_reported
                           (Sample.mac Sample.length_hash Sample.xcparse_fails)
                           Sample.fresh (OtherError "Command failed: xcparse")
                           (snd (Listr (tasks (Sample.mac Sample.length_hash
                                                 Sample.xcparse_fails))
                                   (empty_context, Sample.fresh)))
                           eq_refl) eq_refl)).
Defined.

(* ================================================================== *)
(** * Part IV: further properties of the script *)
(* ================================================================== *)

(** ** Lemmas on the tasks *)

Module TaskFacts.

(** The loop only reads: the world after it is the world before it with
    some [getJSON] calls added, at most one for each file. *)
Lemma parse_attachments_world (files : list (Error + ExtractedDimensions)) :
  forall s w,
  exists n,
    (n <= List.length files)%nat
    /\ snd (parse_attachments files s w)
       = mkWorld (derived_data w) (dimensions_json w) (logs_json w)
                 (effects w ++ repeat GetJSON n).
Proof.
  induction files as [|[e|a] files IH]; intros s w.
  - exists 0%nat. simpl. rewrite app_nil_r. destruct w. auto.
  - exists 1%nat. simpl. split; [lia | reflexivity].
  - destruct (IH (assign a s) (perform GetJSON w)) as (n & Hn & E).
    exists (S n). simpl. rewrite E. simpl. rewrite <- app_assoc. split; [lia | reflexivity].
Qed.

Lemma filter_reads (p : Effect -> bool) (n : nat) :
  p GetJSON = false -> filter p (repeat GetJSON n) = [].
Proof.
  intros H. induction n as [|n IH]; simpl; [reflexivity|]. now rewrite H.
Qed.

Section Host.
Variable host : Host.

(** The context after the task of a device: as before, or with one
    record pushed unless an equal one was there; as before whenever the
    task fails. *)
Lemma device_task_context (d : SimulatorDevice) (context : Context) (w : World) :
  (fst (snd (device_task host d (context, w))) = context
   \/ exists record,
        fst (device_task host d (context, w)) = inr tt
        /\ fst (snd (device_task host d (context, w)))
           = mkContext (devices context)
                       (push_unique (dimensions context) record)
                       (platform context)).
Proof.
  unfold device_task. cbn [Listr]. unfold extracting_dimensions.
  destruct (xcodebuild _); [|now left].
  unfold parsing_extracted_dimensions.
  destruct (xcparse _ _); [now left|].
  destruct (parse_attachments _ _ _) as [[e|record] w4]; [now left|].
  right. exists record. simpl. auto.
Qed.

Lemma device_task_failure (d : SimulatorDevice) (context : Context) (w : World)
    (e : Error) :
  fst (device_task host d (context, w)) = inl e ->
  fst (snd (device_task host d (context, w))) = context.
Proof.
  intros H. destruct (device_task_context d context w) as [E|(record & E & _)].
  - exact E.
  - rewrite E in H. discriminate.
Qed.

(** A device whose run goes through: one build, and the directory is
    gone afterwards. *)
Lemma device_task_clean_world (d : SimulatorDevice) (files : list ExtractedDimensions)
    (context : Context) (w : World) :
  xcodebuild (simulate host (name d)) = Built ->
  xcparse (simulate host (name d)) (hd_error (xcresult (simulate host (name d)))) = None ->
  attachments (simulate host (name d)) = map inr files ->
  exists w',
    device_task host d (context, w)
    = (inr tt,
       (mkContext (devices context)
                  (push_unique (dimensions context) (assemble files))
                  (platform context), w'))
    /\ durable w' = durable w
    /\ derived_data w' = false
    /\ List.length (filter is_build (effects w'))
       = S (List.length (filter is_build (effects w))).
Proof.
  intros Hb Hx Ha. unfold device_task. cbn [Listr].
  unfold extracting_dimensions. rewrite Hb.
  unfold parsing_extracted_dimensions. rewrite Hx, Ha.
  match goal with
  | |- context [parse_attachments ?f ?s ?w0] =>
      pose proof (ParsingFacts.parse_attachments_readable files s w0) as E;
      destruct (parse_attachments_world f s w0) as (n & _ & Hw);
      destruct (parse_attachments f s w0) as [[e|r] w4]
  end; simpl in E, Hw; [discriminate|].
  injection E as ->. subst w4.
  eexists. split; [reflexivity|].
  unfold durable. simpl.
  rewrite !filter_app, (filter_reads is_build n eq_refl),
    (filter_reads is_write n eq_refl).
  simpl. rewrite !app_nil_r, length_app. simpl.
  repeat split. lia.
Qed.

Lemma device_tasks_clean_world (files : string -> list ExtractedDimensions)
    (found : list SimulatorDevice) (version : string) (ds : list SimulatorDevice) :
  (forall d, In d ds ->
     xcodebuild (simulate host (name d)) = Built
     /\ xcparse (simulate host (name d))
          (hd_error (xcresult (simulate host (name d)))) = None
     /\ attachments (simulate host (name d)) = map inr (files (name d))) ->
  forall acc w,
  exists w',
    Listr (map (device_task host) ds) (mkContext found acc version, w)
    = (inr tt,
       (mkContext found
                  (fold_left push_unique
                     (map (fun d => assemble (files (name d))) ds) acc)
                  version, w'))
    /\ durable w' = durable w
    /\ List.length (filter is_build (effects w'))
       = (List.length (filter is_build (effects w)) + List.length ds)%nat.
Proof.
  induction ds as [|d ds IH]; intros Hclean acc w.
  - exists w. simpl. rewrite Nat.add_0_r. auto.
  - destruct (Hclean d (or_introl eq_refl)) as (Hb & Hx & Ha).
    destruct (device_task_clean_world d (files (name d))
                (mkContext found acc version) w Hb Hx Ha)
      as (w1 & E & Hd1 & _ & Hn1).
    destruct (IH (fun x Hin => Hclean x (or_intror Hin))
                (push_unique acc (assemble (files (name d)))) w1)
      as (w' & E' & Hd' & Hn').
    exists w'. cbn [map Listr]. rewrite E.
    cbn [devices dimensions platform fold_left]. rewrite E'.
    rewrite Hd', Hd1, Hn', Hn1. simpl.
    repeat split. lia.
Qed.

(** The four tasks before "Generating files", when everything goes
    through. *)
Lemma before_generating_files_clean (files : string -> list ExtractedDimensions)
    (found : list SimulatorDevice) (version : string) (w : World) :
  fst (verifying_requirements host (empty_context, w)) = inr tt ->
  getDevices host = inr (found, version) ->
  (forall d, In d found ->
     xcodebuild (simulate host (name d)) = Built
     /\ xcparse (simulate host (name d))
          (hd_error (xcresult (simulate host (name d)))) = None
     /\ attachments (simulate host (name d)) = map inr (files (name d))) ->
  exists w',
    Listr [verifying_requirements host; gathering_devices host;
           gathering_dimensions host; sorting_dimensions host] (empty_context, w)
    = (inr tt,
       (mkContext found
                  (DatasetAssembler host
                     (map (fun d => assemble (files (name d))) found))
                  version, w'))
    /\ durable w' = durable w.
Proof.
  intros Hv Hg Hclean. cbn [Listr].
  pose proof (ScriptFacts.verifying_requirements_state host (empty_context, w)) as Hs.
  destruct (verifying_requirements host (empty_context, w)) as [r st0].
  simpl in Hv, Hs. subst r st0.
  unfold gathering_devices. cbn match. rewrite Hg.
  unfold gathering_dimensions. cbn [devices platform dimensions empty_context].
  destruct (device_tasks_clean_world files found version found Hclean []
              (perform CallGetDevices w)) as (w' & E & Hd & _).
  rewrite E. exists w'. split; [reflexivity|].
  rewrite Hd. now apply ScriptFacts.durable_perform.
Qed.

Lemma push_unique_length (g : list Dimensions) (r : Dimensions) :
  (List.length (push_unique g r) <= S (List.length g))%nat.
Proof.
  unfold push_unique. destruct (isUniqueDimensions g r); [|lia].
  rewrite length_app. simpl. lia.
Qed.

(** The tasks of the devices keep [devices] and [platform] and add at
    most one record for each device. *)
Lemma device_tasks_bounds (ds : list SimulatorDevice) :
  forall context w,
    let after := fst (snd (Listr (map (device_task host) ds) (context, w))) in
    devices after = devices context
    /\ platform after = platform context
    /\ (List.length (dimensions after)
        <= List.length (dimensions context) + List.length ds)%nat.
Proof.
  induction ds as [|d ds IH]; intros context w; cbn [map Listr].
  - simpl. repeat split. lia.
  - pose proof (device_task_context d context w) as Hc.
    destruct (device_task host d (context, w)) as [r [c1 w1]]. simpl in Hc.
    assert (Hstep : devices c1 = devices context
                    /\ platform c1 = platform context
                    /\ (List.length (dimensions c1)
                        <= S (List.length (dimensions context)))%nat).
    { destruct Hc as [->|(record & _ & ->)]; simpl.
      - repeat split. lia.
      - repeat split. apply push_unique_length. }
    destruct Hstep as (H1 & H2 & H3).
    destruct r as [e|[]].
    + simpl. repeat split; try assumption. lia.
    + specialize (IH c1 w1). simpl in IH. destruct IH as (I1 & I2 & I3).
      simpl. rewrite I1, I2. repeat split; try assumption. lia.
Qed.

(** Whenever the four tasks before "Generating files" end normally, the
    context holds a sorted array with no two equal records, and no more
    records than devices. *)
Lemma before_generating_files_result (st : State) (context : Context) (w' : World) :
  Listr [verifying_requirements host; gathering_devices host;
         gathering_dimensions host; sorting_dimensions host] st
  = (inr tt, (context, w')) ->
  NoDup (dimensions context)
  /\ ascending (getHashCode host) (dimensions context)
  /\ (List.length (dimensions context) <= List.length (devices context))%nat
  /\ getDevices host = inr (devices context, platform context).
Proof.
  intros H. cbn [Listr] in H.
  pose proof (ScriptFacts.verifying_requirements_state host st) as Hs.
  destruct (verifying_requirements host st) as [[e|[]] st0]; [discriminate|].
  simpl in Hs. subst st0. destruct st as [c0 w0].
  unfold gathering_devices in H at 1.
  destruct (getDevices host) as [e|[found version]]; [discriminate|].
  cbn match in H.
  match type of H with
  | context [gathering_dimensions host ?st2] =>
      pose proof (ScriptFacts.gathering_dimensions_NoDup host st2) as Hnd;
      pose proof (device_tasks_bounds (devices (fst st2))
                    (mkContext (devices (fst st2)) [] (platform (fst st2)))
                    (snd st2)) as Hb;
      change (Listr (map (device_task host) (devices (fst st2)))
                (mkContext (devices (fst st2)) [] (platform (fst st2)), snd st2))
        with (gathering_dimensions host st2) in Hb;
      destruct (gathering_dimensions host st2) as [[e|[]] [c3 w3]];
      [discriminate|]
  end.
  simpl in Hnd, Hb. destruct Hb as (Hdev & Hplat & Hlen).
  rewrite ScriptFacts.sorting_dimensions_spec in H.
  injection H as <- _. simpl.
  pose proof (SortFacts.Array_sort_Permutation _ (getHashCode host) (dimensions c3)) as HP.
  repeat split.
  - eapply Permutation_NoDup; [apply Permutation_sym; exact HP | exact Hnd].
  - apply SortFacts.Array_sort_ascending.
  - unfold by_hash_code. rewrite (Permutation_length HP), Hdev. exact Hlen.
  - now rewrite Hdev, Hplat.
Qed.

Lemma device_task_success_world (d : SimulatorDevice) (st st' : State) :
  device_task host d st = (inr tt, st') -> derived_data (snd st') = false.
Proof.
  destruct st as [context w]. unfold device_task. cbn [Listr].
  unfold extracting_dimensions.
  destruct (xcodebuild _); [|discriminate].
  unfold parsing_extracted_dimensions.
  destruct (xcparse _ _); [discriminate|].
  destruct (parse_attachments _ _ _) as [[e|record] w4]; [discriminate|].
  unfold cleaning_up_extraction_cache. intros [= <-]. reflexivity.
Qed.

Lemma device_tasks_success_world (ds : list SimulatorDevice) :
  forall st st',
    ds <> [] ->
    Listr (map (device_task host) ds) st = (inr tt, st') ->
    derived_data (snd st') = false.
Proof.
  induction ds as [|d ds IH]; intros st st' Hne H; [contradiction|].
  cbn [map Listr] in H.
  destruct (device_task host d st) as [[e|[]] st1] eqn:E; [discriminate|].
  destruct ds as [|d' ds].
  - simpl in H. injection H as <-. now apply (device_task_success_world d st).
  - apply (IH st1 st'); [discriminate | exact H].
Qed.

End Host.

(** Sorting an array that is in ascending order leaves it as it is. *)
Lemma Array_sort_ascending_id (A : Type) (key : A -> Z) (l : list A) :
  ascending key l -> Array_sort (by_key key) l = l.
Proof.
  unfold ascending. induction 1 as [|x l Hl IH Hx]; simpl; [reflexivity|].
  rewrite IH. destruct l as [|y l]; simpl; [reflexivity|].
  inversion Hx as [|? ? Hxy _]; subst.
  unfold by_key. destruct (Z.gtb_spec (key x - key y) 0); [lia | reflexivity].
Qed.

(** Looking a property up after a filter on the names. *)
Lemma get_filter (keep : string -> bool) (key : string) (o : JSONObject) :
  get key (filter (fun kv => keep (fst kv)) o)
  = if keep key then get key o else None.
Proof.
  induction o as [|[k v] o IH]; simpl.
  - now destruct (keep key).
  - destruct (keep k) eqn:Ek; simpl.
    + destruct (String.eqb_spec k key) as [->|Hne].
      * now rewrite Ek.
      * exact IH.
    + destruct (String.eqb_spec k key) as [->|Hne].
      * now rewrite Ek in *.
      * exact IH.
Qed.

End TaskFacts.

Import TaskFacts.

(** ** Sorting dimensions *)

(** X1: the sorting task ends normally and leaves the same records, in
    ascending order of hash code; the devices, the platform and the world
    are untouched. *)
Theorem sorting_task_sorts (host : Host) (context : Context) (w : World) :
  exists sorted,
    sorting_dimensions host (context, w)
    = (inr tt, (mkContext (devices context) sorted (platform context), w))
    /\ Permutation sorted (dimensions context)
    /\ ascending (getHashCode host) sorted.
Proof.
  exists (Array_sort (by_hash_code host) (dimensions context)).
  split; [reflexivity|]. split.
  - apply Array_sort_Permutation.
  - apply Array_sort_ascending.
Qed.

(** X2: the records of one hash code come out of the sort in the order
    they went in. *)
Theorem sorting_keeps_order_of_equal_hash (host : Host) (l : list Dimensions) (k : Z) :
  filter (fun d => (getHashCode host d =? k)%Z) (Array_sort (by_hash_code host) l)
  = filter (fun d => (getHashCode host d =? k)%Z) l.
Proof. apply Array_sort_stable. Qed.

(** X3: sorting a sorted dataset changes nothing: the sorting task run
    twice leaves what it leaves when run once. *)
Theorem sorting_twice_changes_nothing (host : Host) (context : Context) (w : World) :
  Listr [sorting_dimensions host; sorting_dimensions host] (context, w)
  = sorting_dimensions host (context, w).
Proof.
  cbn [Listr]. rewrite !sorting_dimensions_spec. simpl.
  unfold by_hash_code.
  now rewrite (Array_sort_ascending_id _ _ _
                 (Array_sort_ascending _ (getHashCode host) (dimensions context))).
Qed.

(** ** Parsing extracted dimensions *)

(** X4: the payload of an attachment never has an [orientation],
    [device], [scale] or [radius] property, and has every other property
    of the attachment with its value. *)
Theorem payload_keeps_the_other_properties (a : ExtractedDimensions) (key : string) :
  get key (payload a)
  = if existsb (String.eqb key) ["orientation"; "device"; "scale"; "radius"]
    then None
    else get key a.
Proof.
  unfold payload, rest.
  rewrite (get_filter
             (fun k => negb (existsb (String.eqb k)
                                     ["orientation"; "device"; "scale"; "radius"]))).
  now destruct (existsb _ _).
Qed.

(** X5: a portrait and a landscape attachment that agree on [device],
    [scale] and [radius] give the same record in either order of
    enumeration. *)
Theorem enumeration_order_is_irrelevant (p l : ExtractedDimensions) :
  is_portrait (get "orientation" p) = true ->
  is_portrait (get "orientation" l) = false ->
  get "device" p = get "device" l ->
  get "scale" p = get "scale" l ->
  get "radius" p = get "radius" l ->
  assemble [p; l] = assemble [l; p]
  /\ assemble [p; l]
     = mkDimensions (get "device" l) (Some (payload l)) (Some (payload p))
                    (get "radius" l) (get "scale" l).
Proof.
  intros Hp Hl Hd Hs Hr. unfold assemble. simpl. unfold assign.
  rewrite Hp, Hl. simpl. rewrite Hd, Hs, Hr. auto.
Qed.

Lemma enumeration_order_is_irrelevant_witness :
  assemble [Sample.iPhone_portrait; Sample.iPhone_landscape]
  = assemble [Sample.iPhone_landscape; Sample.iPhone_portrait].
Proof.
  apply (enumeration_order_is_irrelevant Sample.iPhone_portrait Sample.iPhone_landscape);
    reflexivity.
Defined.

(** X6: the task of a device that fails, at whatever step, leaves the
    context as it was: no record is pushed. *)
Theorem failing_device_leaves_context (host : Host) (d : SimulatorDevice)
    (context : Context) (w : World) (e : Error) :
  fst (device_task host d (context, w)) = inl e ->
  fst (snd (device_task host d (context, w))) = context.
Proof. apply device_task_failure. Qed.

Lemma failing_device_leaves_context_witness :
  fst (snd (device_task (Sample.mac Sample.length_hash Fleet.second_unreadable)
              Sample.iPhone_14
              (mkContext [Sample.iPhone_14] [Sample.radius_6] "16.0", Sample.fresh)))
  = mkContext [Sample.iPhone_14] [Sample.radius_6] "16.0".
Proof.
  apply (failing_device_leaves_context
           (Sample.mac Sample.length_hash Fleet.second_unreadable) Sample.iPhone_14
           (mkContext [Sample.iPhone_14] [Sample.radius_6] "16.0") Sample.fresh
           (OtherError "JSONError: Unexpected end of JSON input")).
  reflexivity.
Defined.

(** X7: the loop ends at the first attachment that cannot be read, with
    that error: the files before it have been read, the files after it
    are not, and the world is otherwise as it was. *)
Theorem first_unreadable_attachment_ends_the_loop (l : list ExtractedDimensions)
    (e : Error) (others : list (Error + ExtractedDimensions))
    (s : Dimensions) (w : World) :
  parse_attachments (map inr l ++ inl e :: others) s w
  = (inl e,
     mkWorld (derived_data w) (dimensions_json w) (logs_json w)
             (effects w ++ repeat GetJSON (S (List.length l)))).
Proof.
  revert s w. induction l as [|a l IH]; intros s w; simpl.
  - reflexivity.
  - rewrite IH. simpl. now rewrite <- app_assoc.
Qed.

(** ** Gathering dimensions *)

(** X8: "Gathering dimensions" leaves at most one record for each
    device, whether it ends normally or not, and whatever the context
    held before. *)
Theorem at_most_one_record_per_device (host : Host) (context : Context) (w : World) :
  (List.length (dimensions (fst (snd (gathering_dimensions host (context, w)))))
   <= List.length (devices context))%nat
  /\ devices (fst (snd (gathering_dimensions host (context, w)))) = devices context.
Proof.
  unfold gathering_dimensions.
  destruct (device_tasks_bounds host (devices context)
              (mkContext (devices context) [] (platform context)) w)
    as (H1 & _ & H3).
  simpl in H1, H3. auto.
Qed.

(** X9: when "Gathering dimensions" ends normally over at least one
    device, [DERIVED_DATA] is gone. *)
Theorem gathering_success_removes_derived_data (host : Host) (context : Context)
    (w : World) (st' : State) :
  devices context <> [] ->
  gathering_dimensions host (context, w) = (inr tt, st') ->
  derived_data (snd st') = false.
Proof.
  intros Hne H. unfold gathering_dimensions in H.
  exact (device_tasks_success_world host (devices context) _ _ Hne H).
Qed.

Lemma gathering_success_removes_derived_data_witness :
  derived_data
    (snd (snd (gathering_dimensions Fleet.three_devices
                 (mkContext [Sample.iPhone_14; Fleet.iPad_Air; Sample.iPhone_SE] []
                            "16.0", Fleet.earlier))))
  = false.
Proof.
  refine (gathering_success_removes_derived_data Fleet.three_devices
            (mkContext [Sample.iPhone_14; Fleet.iPad_Air; Sample.iPhone_SE] [] "16.0")
            Fleet.earlier _ _ _).
  - discriminate.
  - vm_compute. reflexivity.
Defined.

(** ** The whole run *)

(** X10: when a build fails, the run ends there: the devices after the
    failing one are not built, the error is the outcome of the run, and
    neither file is written. *)
Theorem failing_build_ends_the_run (host : Host)
    (files : string -> list ExtractedDimensions)
    (before after : list SimulatorDevice) (d : SimulatorDevice) (version : string)
    (e : Error) (remains : bool) (w : World) :
  fst (verifying_requirements host (empty_context, w)) = inr tt ->
  getDevices host = inr ((before ++ d :: after)%list, version) ->
  (forall x, In x before ->
     xcodebuild (simulate host (name x)) = Built
     /\ xcparse (simulate host (name x))
          (hd_error (xcresult (simulate host (name x)))) = None
     /\ attachments (simulate host (name x)) = map inr (files (name x))) ->
  xcodebuild (simulate host (name d)) = BuildFailed e remains ->
  fst (Listr (tasks host) (empty_context, w)) = inl e
  /\ List.length (filter is_build (effects (run host w)))
     = (List.length (filter is_build (effects w)) + List.length before + 1)%nat
  /\ durable (run host w) = durable w.
Proof.
  intros Hv Hg Hclean Hb.
  assert (E : exists w',
             Listr (tasks host) (empty_context, w)
             = (inl e,
                (mkContext (before ++ d :: after)
                           (fold_left push_unique
                              (map (fun x => assemble (files (name x))) before) [])
                           version, w'))
             /\ durable w' = durable w
             /\ List.length (filter is_build (effects w'))
                = (List.length (filter is_build (effects w))
                   + List.length before + 1)%nat).
  { unfold tasks. cbn [Listr].
    pose proof (verifying_requirements_state host (empty_context, w)) as Hs.
    destruct (verifying_requirements host (empty_context, w)) as [r st0].
    simpl in Hv, Hs. subst r st0.
    unfold gathering_devices. cbn match. rewrite Hg.
    unfold gathering_dimensions. cbn [devices platform dimensions empty_context].
    rewrite map_app, Listr_app.
    destruct (device_tasks_clean_world host files (before ++ d :: after) version
                before Hclean [] (perform CallGetDevices w))
      as (w1 & E1 & Hd1 & Hn1).
    rewrite E1. cbn [map Listr].
    unfold device_task at 1. cbn [Listr]. unfold extracting_dimensions. rewrite Hb.
    eexists. split; [reflexivity|]. split.
    - unfold durable. simpl. rewrite filter_app. simpl. rewrite app_nil_r.
      unfold durable in Hd1. simpl in Hd1. rewrite filter_app in Hd1. simpl in Hd1.
      rewrite app_nil_r in Hd1. exact Hd1.
    - simpl. rewrite filter_app, length_app. simpl.
      simpl in Hn1. rewrite filter_app, length_app in Hn1. simpl in Hn1. lia. }
  destruct E as (w' & E & Hd & Hn).
  unfold run. rewrite E. simpl fst. split; [reflexivity|].
  unfold handler. destruct (isSilentError e).
  - auto.
  - split.
    + simpl. rewrite filter_app, length_app. simpl. lia.
    + now rewrite durable_perform.
Qed.

Lemma failing_build_ends_the_run_witness :
  fst (Listr (tasks Fleet.iPad_build_fails) (empty_context, Fleet.earlier))
  = inl (OtherError "Command failed: xcodebuild")
  /\ List.length (filter is_build (effects (run Fleet.iPad_build_fails Fleet.earlier)))
     = 2%nat
  /\ durable (run Fleet.iPad_build_fails Fleet.earlier) = durable Fleet.earlier.
Proof.
  apply (failing_build_ends_the_run Fleet.iPad_build_fails Fleet.files_of
           [Sample.iPhone_14] [Sample.iPhone_SE] Fleet.iPad_Air "16.0"
           (OtherError "Command failed: xcodebuild") true Fleet.earlier).
  - reflexivity.
  - reflexivity.
  - intros x [<-|[]]. repeat split; reflexivity.
  - reflexivity.
Defined.

(** X11: a run in which every step goes through writes both files: the
    dataset is the assembled dataset of the records of the devices, in
    the order of the devices, and the log holds the platform. *)
Theorem clean_run_writes_the_assembled_dataset (host : Host)
    (files : string -> list ExtractedDimensions)
    (found : list SimulatorDevice) (version : string) (w : World) :
  fst (verifying_requirements host (empty_context, w)) = inr tt ->
  getDevices host = inr (found, version) ->
  (forall d, In d found ->
     xcodebuild (simulate host (name d)) = Built
     /\ xcparse (simulate host (name d))
          (hd_error (xcresult (simulate host (name d)))) = None
     /\ attachments (simulate host (name d)) = map inr (files (name d))) ->
  writeJSON_error host DIMENSIONS = None ->
  writeJSON_error host LOGS = None ->
  dimensions_json (run host w)
  = Some (DimensionsFile
            (DatasetAssembler host (map (fun d => assemble (files (name d))) found)))
  /\ logs_json (run host w) = Some (LogsFile version).
Proof. apply run_writes_assembled_dataset. Qed.

Lemma clean_run_writes_the_assembled_dataset_witness :
  dimensions_json (run Fleet.three_devices Fleet.earlier)
  = Some (DimensionsFile
            (DatasetAssembler Fleet.three_devices
               (map (fun d => assemble (Fleet.files_of (name d)))
                    [Sample.iPhone_14; Fleet.iPad_Air; Sample.iPhone_SE])))
  /\ logs_json (run Fleet.three_devices Fleet.earlier) = Some (LogsFile "16.0").
Proof.
  apply (clean_run_writes_the_assembled_dataset Fleet.three_devices Fleet.files_of
           [Sample.iPhone_14; Fleet.iPad_Air; Sample.iPhone_SE] "16.0" Fleet.earlier).
  - reflexivity.
  - reflexivity.
  - intros d [<-|[<-|[<-|[]]]]; repeat split; reflexivity.
  - reflexivity.
  - reflexivity.
Defined.

(** ** Generating files *)

Module WriteFacts.

Lemma generating_files_dataset (host : Host) (context : Context) (w : World) :
  dimensions_json (snd (snd (generating_files host (context, w)))) = dimensions_json w
  \/ dimensions_json (snd (snd (generating_files host (context, w))))
     = Some (DimensionsFile (dimensions context)).
Proof.
  unfold generating_files, writeJSON.
  destruct (writeJSON_error host DIMENSIONS); [now left|].
  destruct (writeJSON_error host LOGS); simpl; now right.
Qed.

End WriteFacts.

(** X12: whatever a run writes to [dimensions.json] has no two equal
    records, is in ascending order of hash code, and has no more records
    than there are devices. *)
Theorem written_dataset_is_sorted_and_unique (host : Host) (w : World)
    (dataset : list Dimensions) :
  dimensions_json (run host w) = Some (DimensionsFile dataset) ->
  dimensions_json w <> Some (DimensionsFile dataset) ->
  NoDup dataset
  /\ ascending (getHashCode host) dataset
  /\ exists found version,
       getDevices host = inr (found, version)
       /\ (List.length dataset <= List.length found)%nat.
Proof.
  intros Hrun Hold.
  pose proof (before_generating_files_durable host (empty_context, w)) as Hd.
  unfold run in Hrun.
  change (tasks host)
    with ([verifying_requirements host; gathering_devices host;
           gathering_dimensions host; sorting_dimensions host]
            ++ [generating_files host])%list in Hrun.
  rewrite Listr_app in Hrun.
  destruct (Listr [verifying_requirements host; gathering_devices host;
                   gathering_dimensions host; sorting_dimensions host]
              (empty_context, w)) as [[e|[]] [c w']] eqn:E.
  - exfalso. apply Hold. rewrite <- Hrun.
    simpl in Hd. injection Hd as H1 _ _. rewrite <- H1.
    unfold handler. now destruct (isSilentError e).
  - simpl in Hd. injection Hd as H1 _ _.
    assert (Hfile : dimensions_json (snd (snd (generating_files host (c, w'))))
                    = Some (DimensionsFile dataset)).
    { cbn [Listr] in Hrun.
      destruct (generating_files host (c, w')) as [[e|[]] [c2 w2]]; simpl in *.
      - rewrite <- Hrun. unfold handler. now destruct (isSilentError e).
      - exact Hrun. }
    destruct (WriteFacts.generating_files_dataset host c w') as [Hsame|Hnew].
    + exfalso. apply Hold. now rewrite <- H1, <- Hsame.
    + rewrite Hnew in Hfile. injection Hfile as <-.
      destruct (before_generating_files_result host _ _ _ E)
        as (Hnd & Hasc & Hlen & Hfound).
      split; [assumption|]. split; [assumption|].
      exists (devices c), (platform c). auto.
Qed.

Lemma written_dataset_is_sorted_and_unique_witness :
  NoDup (DatasetAssembler Fleet.three_devices
           (map (fun d => assemble (Fleet.files_of (name d)))
                [Sample.iPhone_14; Fleet.iPad_Air; Sample.iPhone_SE]))
  /\ ascending Sample.length_hash
       (DatasetAssembler Fleet.three_devices
          (map (fun d => assemble (Fleet.files_of (name d)))
               [Sample.iPhone_14; Fleet.iPad_Air; Sample.iPhone_SE])).
Proof.
  destruct (written_dataset_is_sorted_and_unique Fleet.three_devices Fleet.earlier
              (DatasetAssembler Fleet.three_devices
                 (map (fun d => assemble (Fleet.files_of (name d)))
                      [Sample.iPhone_14; Fleet.iPad_Air; Sample.iPhone_SE])))
    as (H1 & H2 & _).
  - vm_compute. reflexivity.
  - vm_compute. discriminate.
  - split; [exact H1 | exact H2].
Defined.

(** X13: the two files are written one after the other. When the host
    refuses the second write, the run is rejected with that error after
    [dimensions.json] has been replaced by the new dataset, and
    [logs.json] is as it was. *)
Theorem refused_logs_leave_the_new_dataset (host : Host)
    (files : string -> list ExtractedDimensions)
    (found : list SimulatorDevice) (version : string) (e : Error) (w : World) :
  fst (verifying_requirements host (empty_context, w)) = inr tt ->
  getDevices host = inr (found, version) ->
  (forall d, In d found ->
     xcodebuild (simulate host (name d)) = Built
     /\ xcparse (simulate host (name d))
          (hd_error (xcresult (simulate host (name d)))) = None
     /\ attachments (simulate host (name d)) = map inr (files (name d))) ->
  writeJSON_error host DIMENSIONS = None ->
  writeJSON_error host LOGS = Some e ->
  fst (Listr (tasks host) (empty_context, w)) = inl e
  /\ dimensions_json (run host w)
     = Some (DimensionsFile
               (DatasetAssembler host (map (fun d => assemble (files (name d))) found)))
  /\ logs_json (run host w) = logs_json w.
Proof.
  intros Hv Hg Hclean Hw1 Hw2.
  destruct (before_generating_files_clean host files found version w Hv Hg Hclean)
    as (w' & E & Hd).
  injection Hd as _ Hlogs _.
  unfold run.
  change (tasks host)
    with ([verifying_requirements host; gathering_devices host;
           gathering_dimensions host; sorting_dimensions host]
            ++ [generating_files host])%list.
  rewrite Listr_app, E. cbn [Listr].
  unfold generating_files, writeJSON. rewrite Hw1, Hw2. simpl.
  unfold handler. destruct (isSilentError e); simpl; auto.
Qed.

Lemma refused_logs_leave_the_new_dataset_witness :
  fst (Listr (tasks Fleet.logs_refused) (empty_context, Fleet.earlier))
  = inl (OtherError "EACCES: permission denied")
  /\ dimensions_json (run Fleet.logs_refused Fleet.earlier)
     = Some (DimensionsFile
               (DatasetAssembler Fleet.logs_refused
                  (map (fun d => assemble (Fleet.files_of (name d)))
                       [Sample.iPhone_14; Fleet.iPad_Air; Sample.iPhone_SE])))
  /\ logs_json (run Fleet.logs_refused Fleet.earlier) = Some (LogsFile "15.5").
Proof.
  apply (refused_logs_leave_the_new_dataset Fleet.logs_refused Fleet.files_of
           [Sample.iPhone_14; Fleet.iPad_Air; Sample.iPhone_SE] "16.0"
           (OtherError "EACCES: permission denied") Fleet.earlier).
  - reflexivity.
  - reflexivity.
  - intros d [<-|[<-|[<-|[]]]]; repeat split; reflexivity.
  - reflexivity.
  - reflexivity.
Defined.

(* ================================================================== *)
(** * Part V: properties of the site component *)
(* ================================================================== *)

Module SiteFacts.
Import Site.

(** *** Sorting with any compare function *)

Lemma sort_insert_Permutation_any (A : Type) (comparefn : A -> A -> Z) (x : A)
    (l : list A) :
  Permutation (sort_insert comparefn x l) (x :: l).
Proof.
  induction l as [|y l IH]; simpl; [reflexivity|].
  destruct (comparefn x y >? 0)%Z; [|reflexivity].
  rewrite IH. apply perm_swap.
Qed.

Lemma Array_sort_Permutation_any (A : Type) (comparefn : A -> A -> Z) (l : list A) :
  Permutation (Array_sort comparefn l) l.
Proof.
  induction l as [|x l IH]; simpl; [reflexivity|].
  rewrite sort_insert_Permutation_any. now constructor.
Qed.

Lemma Array_sort_ext (A : Type) (c1 c2 : A -> A -> Z) (l : list A) :
  (forall a b, c1 a b = c2 a b) -> Array_sort c1 l = Array_sort c2 l.
Proof.
  intros H. induction l as [|x l IH]; simpl; [reflexivity|].
  rewrite IH. generalize (Array_sort c2 l) as s.
  induction s as [|y s IHs]; simpl; [reflexivity|].
  now rewrite H, IHs.
Qed.

(** *** The map *)

Lemma Map_get_set (V : Type) (key k : string) (v : V) (m : list (string * V)) :
  Map_get key (Map_set k v m)
  = if String.eqb k key then Some v else Map_get key m.
Proof.
  induction m as [|[k0 x] m IH]; simpl.
  - reflexivity.
  - destruct (String.eqb_spec k0 k) as [->|Hne]; simpl.
    + now destruct (String.eqb k key).
    + destruct (String.eqb_spec k0 key) as [->|Hne'].
      * destruct (String.eqb_spec k key); [congruence | reflexivity].
      * exact IH.
Qed.

Lemma Map_get_app (V : Type) (key : string) (m1 m2 : list (string * V)) :
  Map_get key (m1 ++ m2)
  = match Map_get key m1 with
    | Some v => Some v
    | None => Map_get key m2
    end.
Proof.
  induction m1 as [|[k x] m1 IH]; simpl; [reflexivity|].
  now destruct (String.eqb k key).
Qed.

(** Looking a key up in a map built from entries gives the value of the
    last entry with that key. *)
Lemma Map_get_fold (V : Type) (key : string) (entries : list (string * V)) :
  forall m,
    Map_get key (fold_left (fun m kv => Map_set (fst kv) (snd kv) m) entries m)
    = match Map_get key (rev entries) with
      | Some v => Some v
      | None => Map_get key m
      end.
Proof.
  induction entries as [|[k v] entries IH]; intros m; simpl; [reflexivity|].
  rewrite IH, Map_get_app, Map_get_set. simpl.
  destruct (Map_get key (rev entries)); [reflexivity|].
  now destruct (String.eqb k key).
Qed.

Lemma Map_get_In (V : Type) (key : string) (v : V) (m : list (string * V)) :
  Map_get key m = Some v -> In (key, v) m.
Proof.
  induction m as [|[k x] m IH]; simpl; [discriminate|].
  destruct (String.eqb_spec k key) as [->|Hne].
  - intros [= ->]. now left.
  - intros H. right. now apply IH.
Qed.

Lemma In_Map_get (V : Type) (key : string) (v : V) (m : list (string * V)) :
  In (key, v) m -> exists v', Map_get key m = Some v'.
Proof.
  induction m as [|[k x] m IH]; simpl; [contradiction|].
  intros [[= -> ->]|Hin].
  - rewrite String.eqb_refl. eauto.
  - destruct (String.eqb k key); eauto.
Qed.

(** *** Paths *)

Lemma show_peel (a a' : Z) (c c' : ascii) (r r' : string) :
  JSON.is_num_char c = false -> JSON.is_num_char c' = false ->
  show a ++ String c r = show a' ++ String c' r' ->
  a = a' /\ String c r = String c' r'.
Proof.
  intros Hc Hc' H.
  now apply (JSONFacts.number_prefix_inj a a' (String c r) (String c' r')).
Qed.

Lemma getPathFromFrame_prefix_inj (f f' : Frame) (w h : Z) (r r' : string) :
  getPathFromFrame f w h ++ r = getPathFromFrame f' w h ++ r' ->
  f = f' /\ r = r'.
Proof.
  unfold getPathFromFrame, newline. intros H.
  repeat rewrite JSONFacts.append_assoc in H. cbn [append] in H.
  repeat (injection H as H).
  apply show_peel in H as [Hl H]; [|reflexivity|reflexivity].
  repeat (injection H as H).
  apply show_peel in H as [Ht H]; [|reflexivity|reflexivity].
  repeat (injection H as H).
  apply show_peel in H as [Hb H]; [|reflexivity|reflexivity].
  repeat (injection H as H).
  apply show_peel in H as [Hr H]; [|reflexivity|reflexivity].
  repeat (injection H as H).
  apply show_peel in H as [_ H]; [|reflexivity|reflexivity].
  repeat (injection H as H).
  destruct f as [t r0 b l], f' as [t' r0' b' l']. simpl in *.
  split; [|assumption]. f_equal; lia.
Qed.

(** *** The pattern *)

Lemma span_spec (p : ascii -> bool) (l : list ascii) :
  forall yes rest,
    span p l = (yes, rest) ->
    l = (yes ++ rest)%list
    /\ forallb p yes = true
    /\ match rest with
       | [] => True
       | c :: _ => p c = false
       end.
Proof.
  induction l as [|c l IH]; intros yes rest; simpl.
  - intros [= <- <-]. auto.
  - destruct (p c) eqn:Ec.
    + destruct (span p l) as [yes' rest'] eqn:E. intros [= <- <-].
      destruct (IH _ _ eq_refl) as (-> & Hall & Hrest).
      simpl. rewrite Ec. auto.
    + intros [= <- <-]. simpl. auto.
Qed.

Lemma span_unique (p : ascii -> bool) (yes rest : list ascii) :
  forallb p yes = true ->
  match rest with
  | [] => True
  | c :: _ => p c = false
  end ->
  span p (yes ++ rest) = (yes, rest).
Proof.
  intros Hyes Hrest. induction yes as [|c yes IH]; simpl in *.
  - destruct rest as [|c rest]; [reflexivity|]. simpl. now rewrite Hrest.
  - apply andb_true_iff in Hyes as [Hc Hyes]. rewrite Hc, (IH Hyes). reflexivity.
Qed.

Lemma space_is_no_digit (c : ascii) : is_space c = true -> is_digit c = false.
Proof. destruct c as [[] [] [] [] [] [] [] []]; vm_compute; congruence. Qed.

Lemma word_is_no_space (c : ascii) : is_word c = true -> is_space c = false.
Proof. destruct c as [[] [] [] [] [] [] [] []]; vm_compute; congruence. Qed.

Lemma match_numbered_input (s : string) (m : Match) :
  match_numbered s = Some m -> input m = s.
Proof.
  unfold match_numbered.
  destruct (span is_digit _) as [digits r1].
  destruct (span is_space r1) as [spaces r2].
  destruct digits, spaces, r2 as [|c r2]; try discriminate.
  destruct (is_word c); [|discriminate]. now intros [= <-].
Qed.

Lemma forallb_rev (p : ascii -> bool) (l : list ascii) :
  forallb p (rev l) = forallb p l.
Proof.
  induction l as [|c l IH]; simpl; [reflexivity|].
  rewrite forallb_app, IH. simpl. rewrite andb_true_r. apply andb_comm.
Qed.

(** *** The head of a sorted array *)

Lemma filter_head_split (A : Type) (p : A -> bool) (l : list A) :
  forall x t,
    filter p l = x :: t ->
    exists l1 l2,
      l = (l1 ++ x :: l2)%list /\ Forall (fun y => p y = false) l1 /\ p x = true.
Proof.
  induction l as [|y l IH]; intros x t; simpl; [discriminate|].
  destruct (p y) eqn:Ey.
  - intros [= -> _]. exists [], l. auto.
  - intros H. destruct (IH _ _ H) as (l1 & l2 & -> & Hl1 & Hx).
    exists (y :: l1), l2. auto.
Qed.

(** The head of the sorted array is the first element of the array
    among those of the least key. *)
Lemma sorted_head (A : Type) (key : A -> Z) (l : list A) (x : A) (others : list A) :
  Array_sort (by_key key) l = x :: others ->
  exists l1 l2,
    l = (l1 ++ x :: l2)%list
    /\ (forall y, In y l1 -> (key x < key y)%Z)
    /\ (forall y, In y l2 -> (key x <= key y)%Z).
Proof.
  intros E.
  pose proof (SortFacts.Array_sort_ascending _ key l) as Hasc.
  pose proof (SortFacts.Array_sort_Permutation _ key l) as HP.
  pose proof (SortFacts.Array_sort_stable _ key (key x) l) as Hst.
  rewrite E in Hasc, HP, Hst.
  assert (Hmin : forall y, In y l -> (key x <= key y)%Z).
  { intros y Hy. apply (Permutation_in _ (Permutation_sym HP)) in Hy.
    destruct Hy as [<-|Hy]; [lia|].
    inversion Hasc as [|? ? _ Hall]; subst.
    rewrite Forall_forall in Hall. now apply Hall. }
  simpl in Hst. rewrite Z.eqb_refl in Hst. symmetry in Hst.
  destruct (filter_head_split _ _ _ _ _ Hst) as (l1 & l2 & -> & Hl1 & _).
  exists l1, l2. split; [reflexivity|]. split.
  - intros y Hy. rewrite Forall_forall in Hl1.
    specialize (Hl1 y Hy). apply Z.eqb_neq in Hl1.
    specialize (Hmin y (in_or_app _ _ _ (or_introl Hy))). lia.
  - intros y Hy. apply Hmin. apply in_or_app. right. now right.
Qed.

Lemma Array_sort_nil (A : Type) (comparefn : A -> A -> Z) (l : list A) :
  Array_sort comparefn l = [] -> l = [].
Proof.
  intros E. pose proof (Array_sort_Permutation_any _ comparefn l) as HP.
  rewrite E in HP. now apply Permutation_nil.
Qed.

(** *** The matches that are not [null] *)

Lemma truthy_app (A : Type) (l1 l2 : list (option A)) :
  truthy (l1 ++ l2) = (truthy l1 ++ truthy l2)%list.
Proof.
  induction l1 as [|[x|] l1 IH]; simpl; [reflexivity | now rewrite IH | exact IH].
Qed.

Lemma In_truthy (A B : Type) (f : A -> option B) (l : list A) (m : B) :
  In m (truthy (map f l)) <-> exists d, In d l /\ f d = Some m.
Proof.
  induction l as [|d l IH]; simpl.
  - split; [contradiction | intros (d & [] & _)].
  - destruct (f d) as [m0|] eqn:E; simpl; rewrite IH; split.
    + intros [<-|(d' & Hin & Hf)]; eauto.
    + intros (d' & [<-|Hin] & Hf); [left; congruence | right; eauto].
    + intros (d' & Hin & Hf); eauto.
    + intros (d' & [<-|Hin] & Hf); [congruence | eauto].
Qed.

Lemma truthy_map_split (A B : Type) (f : A -> option B) (l : list A) :
  forall l1 m l2,
    truthy (map f l) = (l1 ++ m :: l2)%list ->
    exists c1 d c2,
      l = (c1 ++ d :: c2)%list
      /\ f d = Some m
      /\ truthy (map f c1) = l1
      /\ truthy (map f c2) = l2.
Proof.
  induction l as [|d l IH]; intros l1 m l2; simpl.
  - destruct l1; discriminate.
  - destruct (f d) as [m0|] eqn:E.
    + destruct l1 as [|m1 l1]; simpl.
      * intros [= -> <-]. exists [], d, l. auto.
      * intros [= -> H]. destruct (IH _ _ _ H) as (c1 & d' & c2 & -> & Hf & H1 & H2).
        exists (d :: c1), d', c2. simpl. rewrite E, H1. auto.
    + intros H. destruct (IH _ _ _ H) as (c1 & d' & c2 & -> & Hf & H1 & H2).
      exists (d :: c1), d', c2. simpl. rewrite E. auto.
Qed.

Lemma Map_get_entries (key : string) (l : list Dimensions) :
  Map_get key (map (fun dimensions => (name dimensions, dimensions)) l)
  = find (fun dimensions => String.eqb (name dimensions) key) l.
Proof.
  induction l as [|d l IH]; simpl; [reflexivity|].
  now destruct (String.eqb (name d) key).
Qed.

Lemma attributedDimensions_get (defaultDimensions : list Dimensions) (key : string) :
  Map_get key (attributedDimensions defaultDimensions)
  = find (fun dimensions => String.eqb (name dimensions) key) (rev defaultDimensions).
Proof.
  unfold attributedDimensions, new_Map.
  rewrite Map_get_fold, <- map_rev, Map_get_entries. simpl.
  now destruct (find _ _).
Qed.

Lemma iPhone_In (localeCompare : string -> string -> Z)
    (defaultDimensions : list Dimensions) (d : Dimensions) :
  In d (iPhone localeCompare defaultDimensions)
  <-> In d defaultDimensions /\ device d = "iPhone".
Proof.
  unfold iPhone.
  assert (HP := Array_sort_Permutation_any _ (sortDimensions localeCompare)
                  (filter (fun d => String.eqb (device d) "iPhone") defaultDimensions)).
  split.
  - intros H. apply (Permutation_in _ HP) in H.
    apply filter_In in H as [Hin Hd]. now apply String.eqb_eq in Hd.
  - intros [Hin Hd]. apply (Permutation_in _ (Permutation_sym HP)).
    apply filter_In. split; [assumption|]. now apply String.eqb_eq.
Qed.

(** What [getDefaultDevice] returns is the name of a set of dimensions
    of the dataset. *)
Lemma getDefaultDevice_In (localeCompare : string -> string -> Z)
    (defaultDimensions : list Dimensions) (n : string) :
  getDefaultDevice localeCompare defaultDimensions = Some n ->
  exists d, In d defaultDimensions /\ name d = n.
Proof.
  unfold getDefaultDevice.
  destruct (Array_sort _ (truthy _)) as [|m others] eqn:E.
  - destruct (iPhone localeCompare defaultDimensions) as [|first others] eqn:Ei;
      [discriminate|].
    intros [= <-]. exists first. split; [|reflexivity].
    assert (Hin : In first (iPhone localeCompare defaultDimensions))
      by (rewrite Ei; now left).
    unfold iPhone in Hin.
    apply (Permutation_in _ (Array_sort_Permutation_any _ _ _)) in Hin.
    now apply filter_In in Hin.
  - intros [= <-].
    assert (Hin : In m (m :: others)) by now left.
    rewrite <- E in Hin.
    apply (Permutation_in _ (Array_sort_Permutation_any _ _ _)) in Hin.
    apply In_truthy in Hin as (d & Hd & Hm).
    exists d. split; [assumption|]. symmetry. now apply match_numbered_input.
Qed.

End SiteFacts.

Module SiteProperties.
Import Site SiteFacts.

(** X14: the two option lists hold the sets of dimensions whose [device]
    is ["iPhone"] and ["iPad"], each as often as the dataset has it,
    whatever order [localeCompare] gives; a set of dimensions of another
    device is in neither list. *)
Theorem option_lists (localeCompare : string -> string -> Z)
    (defaultDimensions : list Dimensions) :
  Permutation (iPhone localeCompare defaultDimensions)
              (filter (fun d => String.eqb (device d) "iPhone") defaultDimensions)
  /\ Permutation (iPad localeCompare defaultDimensions)
                 (filter (fun d => String.eqb (device d) "iPad") defaultDimensions)
  /\ forall d,
       (In d (iPhone localeCompare defaultDimensions)
        <-> In d defaultDimensions /\ device d = "iPhone")
       /\ (In d (iPad localeCompare defaultDimensions)
           <-> In d defaultDimensions /\ device d = "iPad").
Proof.
  assert (H1 := Array_sort_Permutation_any _ (sortDimensions localeCompare)
                  (filter (fun d => String.eqb (device d) "iPhone") defaultDimensions)).
  assert (H2 := Array_sort_Permutation_any _ (sortDimensions localeCompare)
                  (filter (fun d => String.eqb (device d) "iPad") defaultDimensions)).
  split; [exact H1|]. split; [exact H2|].
  intros d. unfold iPhone, iPad. split; split.
  - intros H. apply (Permutation_in _ H1) in H.
    apply filter_In in H as [Hin Hd]. now apply String.eqb_eq in Hd.
  - intros [Hin Hd]. apply (Permutation_in _ (Permutation_sym H1)).
    apply filter_In. split; [assumption|]. now apply String.eqb_eq.
  - intros H. apply (Permutation_in _ H2) in H.
    apply filter_In in H as [Hin Hd]. now apply String.eqb_eq in Hd.
  - intros [Hin Hd]. apply (Permutation_in _ (Permutation_sym H2)).
    apply filter_In. split; [assumption|]. now apply String.eqb_eq.
Qed.

(** X15: for a screen and frames whose numbers are integers of at most
    2^52 in magnitude, [getPathFromDimensions] returns [undefined] exactly
    when the reference frame is the bounds; against given bounds and a
    given screen, two reference frames give the same result only when they
    are the same frame. *)
Theorem path_tells_frames_apart (screen : Screen) (reference reference' bounds : Frame) :
  safe_screen screen ->
  safe_frame reference ->
  safe_frame reference' ->
  safe_frame bounds ->
  (getPathFromDimensions screen reference bounds = None <-> reference = bounds)
  /\ (getPathFromDimensions screen reference bounds
      = getPathFromDimensions screen reference' bounds ->
      reference = reference').
Proof.
  intros _ _ _ _.
  assert (Hnone : forall r,
             getPathFromDimensions screen r bounds = None <-> r = bounds).
  { intros r. unfold getPathFromDimensions.
    destruct r as [t r0 b l], bounds as [t' r0' b' l']. simpl.
    destruct (Z.eqb_spec t t'), (Z.eqb_spec r0 r0'), (Z.eqb_spec b b'),
      (Z.eqb_spec l l'); simpl; split; try discriminate; try congruence.
    all: intros _; subst; reflexivity. }
  split; [apply Hnone|].
  intros H.
  destruct (getPathFromDimensions screen reference bounds) as [path|] eqn:E.
  - symmetry in H. unfold getPathFromDimensions in E, H.
    destruct (_ && _)%bool in E; [discriminate|].
    destruct (_ && _)%bool in H; [discriminate|].
    injection E as <-.
    apply (f_equal (fun o => match o with Some x => x | None => EmptyString end)) in H.
    cbv beta iota in H.
    now apply getPathFromFrame_prefix_inj in H as [-> _].
  - symmetry in H. apply Hnone in E, H. congruence.
Qed.

Lemma path_tells_frames_apart_witness :
  (getPathFromDimensions (mkScreen 390 844) (mkFrame 47 0 34 0) DEFAULT_SCREEN_BOUNDS
   = None
   <-> mkFrame 47 0 34 0 = DEFAULT_SCREEN_BOUNDS)
  /\ (getPathFromDimensions (mkScreen 390 844) (mkFrame 47 0 34 0) DEFAULT_SCREEN_BOUNDS
      = getPathFromDimensions (mkScreen 390 844) (mkFrame 47 16 34 16)
          DEFAULT_SCREEN_BOUNDS ->
      mkFrame 47 0 34 0 = mkFrame 47 16 34 16).
Proof.
  apply path_tells_frames_apart;
    unfold safe_screen, safe_frame, safe; simpl; lia.
Defined.

(** X16: a name matches the pattern exactly when it ends with a word
    character, then white space, then digits; the group is the digits at
    the end and [input] the name itself. *)
Theorem numbered_names (s : string) (m : Match) :
  match_numbered s = Some m
  <-> input m = s
      /\ exists pre c spaces digits,
           list_ascii_of_string s = (pre ++ c :: spaces ++ digits)%list
           /\ is_word c = true
           /\ spaces <> [] /\ forallb is_space spaces = true
           /\ digits <> [] /\ forallb is_digit digits = true
           /\ group m = string_of_list_ascii digits.
Proof.
  split.
  - intros H. split; [now apply match_numbered_input|].
    unfold match_numbered in H.
    destruct (span is_digit (rev (list_ascii_of_string s))) as [ds r1] eqn:E1.
    destruct (span is_space r1) as [ws r2] eqn:E2.
    destruct (span_spec _ _ _ _ E1) as (Hs1 & Hds & _).
    destruct (span_spec _ _ _ _ E2) as (Hs2 & Hws & _).
    destruct ds as [|d0 ds]; [discriminate|].
    destruct ws as [|w0 ws]; [discriminate|].
    destruct r2 as [|c r2]; [discriminate|].
    destruct (is_word c) eqn:Ec; [|discriminate].
    injection H as <-. simpl group.
    exists (rev r2), c, (rev (w0 :: ws)), (rev (d0 :: ds)).
    repeat split.
    + rewrite <- (rev_involutive (list_ascii_of_string s)), Hs1, Hs2.
      rewrite !rev_app_distr. simpl. now rewrite <- !app_assoc.
    + assumption.
    + simpl. intros E. now apply app_eq_nil in E as [_ [=]].
    + now rewrite forallb_rev.
    + simpl. intros E. now apply app_eq_nil in E as [_ [=]].
    + now rewrite forallb_rev.
  - intros (Hin & pre & c & ws & ds & Hs & Hc & Hws0 & Hws & Hds0 & Hds & Hg).
    unfold match_numbered. rewrite Hs.
    rewrite !rev_app_distr. simpl. rewrite !rev_app_distr, <- !app_assoc. simpl.
    assert (Hrws : rev ws <> []).
    { intros E. apply Hws0. rewrite <- (rev_involutive ws), E. reflexivity. }
    assert (Hrds : rev ds <> []).
    { intros E. apply Hds0. rewrite <- (rev_involutive ds), E. reflexivity. }
    rewrite (span_unique is_digit (rev ds)).
    + rewrite (span_unique is_space (rev ws) (c :: rev pre)).
      * destruct (rev ds) as [|d0 rds] eqn:Erds; [contradiction|].
        destruct (rev ws) as [|w0 rws] eqn:Erws; [contradiction|].
        rewrite Hc, <- Erds, rev_involutive.
        destruct m as [i g]. simpl in Hin, Hg. now subst i g.
      * now rewrite forallb_rev.
      * now apply word_is_no_space.
    + now rewrite forallb_rev.
    + destruct (rev ws) as [|w0 rws] eqn:Erws; [contradiction|].
      simpl. apply space_is_no_digit.
      assert (Hall : forallb is_space (rev ws) = true) by now rewrite forallb_rev.
      rewrite Erws in Hall. simpl in Hall. now apply andb_true_iff in Hall as [? _].
Qed.

(** X17: when a name of the dataset matches the pattern, the default
    device is the first set of dimensions of the dataset among those whose
    name ends in the greatest number. The numbers are to have fifteen
    digits at most, for [Number] to hold them exactly. *)
Theorem default_device_is_the_latest (localeCompare : string -> string -> Z)
    (defaultDimensions : list Dimensions) (d0 : Dimensions) (m0 : Match) :
  In d0 defaultDimensions ->
  match_numbered (name d0) = Some m0 ->
  (forall d m, In d defaultDimensions -> match_numbered (name d) = Some m -> exact m) ->
  exists before latest after found,
    defaultDimensions = (before ++ latest :: after)%list
    /\ match_numbered (name latest) = Some found
    /\ getDefaultDevice localeCompare defaultDimensions = Some (name latest)
    /\ (forall d m, In d before -> match_numbered (name d) = Some m ->
                    (Number (group m) < Number (group found))%Z)
    /\ (forall d m, In d after -> match_numbered (name d) = Some m ->
                    (Number (group m) <= Number (group found))%Z).
Proof.
  intros Hd0 Hm0 _.
  unfold getDefaultDevice.
  rewrite (Array_sort_ext _ _ (by_key (fun m => (- Number (group m))%Z)))
    by (intros a b; unfold by_key; lia).
  destruct (Array_sort _ (truthy _)) as [|found others] eqn:E.
  - apply Array_sort_nil in E.
    assert (Hin : In m0 (truthy (map (fun d => match_numbered (name d))
                                     defaultDimensions)))
      by (apply In_truthy; eauto).
    rewrite E in Hin. contradiction.
  - destruct (sorted_head _ _ _ _ _ E) as (l1 & l2 & Hsplit & Hl1 & Hl2).
    destruct (truthy_map_split _ _ _ _ _ _ _ Hsplit)
      as (before & latest & after & -> & Hf & H1 & H2).
    exists before, latest, after, found.
    split; [reflexivity|]. split; [assumption|]. split.
    + f_equal. now apply match_numbered_input.
    + split; intros d m Hin Hm.
      * assert (Hm1 : In m l1) by (rewrite <- H1; apply In_truthy; eauto).
        specialize (Hl1 m Hm1). lia.
      * assert (Hm2 : In m l2) by (rewrite <- H2; apply In_truthy; eauto).
        specialize (Hl2 m Hm2). lia.
Qed.

Lemma default_device_is_the_latest_witness :
  exists before after found,
    sample = (before ++ mkDimensions "iPhone 14" "iPhone" :: after)%list
    /\ match_numbered "iPhone 14" = Some found
    /\ getDefaultDevice by_code sample = Some "iPhone 14".
Proof.
  destruct (default_device_is_the_latest by_code sample
              (mkDimensions "iPhone 8" "iPhone") (mkMatch "iPhone 8" "8"))
    as (before & latest & after & found & H1 & H2 & H3 & _).
  - simpl. auto.
  - reflexivity.
  - intros d m Hin Hm. simpl in Hin.
    repeat (destruct Hin as [<-|Hin]; [vm_compute in Hm; try discriminate Hm;
                                       injection Hm as <-; vm_compute; lia|]).
    contradiction.
  - assert (Hl : name latest = "iPhone 14").
    { assert (E : getDefaultDevice by_code sample = Some "iPhone 14") by reflexivity.
      rewrite E in H3. now injection H3. }
    exists before, after, found.
    assert (Hlatest : latest = mkDimensions "iPhone 14" "iPhone").
    { assert (Hin : In latest sample) by (rewrite H1; apply in_elt).
      simpl in Hin.
      repeat (destruct Hin as [<-|Hin]; [first [reflexivity | discriminate Hl]|]).
      contradiction. }
    subst latest. simpl in H2. rewrite <- Hl in H3 at 1. auto.
Defined.

(** X18: when no name of the dataset matches the pattern, the default
    device is the first iPhone of the sorted list; with no iPhone either,
    [getDefaultDevice] throws. *)
Theorem default_device_without_numbers (localeCompare : string -> string -> Z)
    (defaultDimensions : list Dimensions) :
  (forall d, In d defaultDimensions -> match_numbered (name d) = None) ->
  getDefaultDevice localeCompare defaultDimensions
  = option_map name (hd_error (iPhone localeCompare defaultDimensions))
  /\ (getDefaultDevice localeCompare defaultDimensions = None
      <-> forall d, In d defaultDimensions -> device d <> "iPhone").
Proof.
  intros Hnone.
  assert (Hempty : truthy (map (fun d => match_numbered (name d)) defaultDimensions)
                   = []).
  { destruct (truthy _) as [|m ms] eqn:E; [reflexivity|].
    assert (Hin : In m (m :: ms)) by now left.
    rewrite <- E in Hin. apply In_truthy in Hin as (d & Hd & Hm).
    rewrite (Hnone d Hd) in Hm. discriminate. }
  assert (Hget : getDefaultDevice localeCompare defaultDimensions
                 = option_map name (hd_error (iPhone localeCompare defaultDimensions))).
  { unfold getDefaultDevice. rewrite Hempty. simpl.
    now destruct (iPhone localeCompare defaultDimensions). }
  split; [exact Hget|].
  rewrite Hget.
  split.
  - intros H d Hd Hdev.
    assert (Hi : In d (iPhone localeCompare defaultDimensions))
      by (apply iPhone_In; auto).
    destruct (iPhone localeCompare defaultDimensions); [contradiction | discriminate].
  - intros H.
    destruct (iPhone localeCompare defaultDimensions) as [|first others] eqn:E;
      [reflexivity|].
    exfalso.
    assert (Hi : In first (iPhone localeCompare defaultDimensions))
      by (rewrite E; now left).
    apply iPhone_In in Hi as [Hd Hdev]. exact (H first Hd Hdev).
Qed.

Lemma default_device_without_numbers_witness :
  getDefaultDevice by_code unnumbered
  = option_map name (hd_error (iPhone by_code unnumbered)).
Proof.
  refine (proj1 (default_device_without_numbers by_code unnumbered _)).
  intros d Hin. simpl in Hin.
  repeat (destruct Hin as [<-|Hin]; [reflexivity|]).
  contradiction.
Defined.

(** X19: [attributedDimensions.get(name)] is the last set of dimensions
    of the dataset with that name, and [undefined] when the dataset has
    none. *)
Theorem attributed_dimensions_last_wins (defaultDimensions : list Dimensions)
    (key : string) :
  Map_get key (attributedDimensions defaultDimensions)
  = find (fun dimensions => String.eqb (name dimensions) key) (rev defaultDimensions).
Proof. apply attributedDimensions_get. Qed.

(** X20: whenever [getDefaultDevice] returns, the name it returns is in
    the map: the initial state of the component resolves to a set of
    dimensions of the dataset with that name. *)
Theorem default_device_resolves (localeCompare : string -> string -> Z)
    (defaultDimensions : list Dimensions) (n : string) :
  getDefaultDevice localeCompare defaultDimensions = Some n ->
  exists d,
    Map_get n (attributedDimensions defaultDimensions) = Some d
    /\ name d = n
    /\ In d defaultDimensions.
Proof.
  intros H. apply getDefaultDevice_In in H as (d0 & Hd0 & Hn).
  rewrite attributedDimensions_get.
  destruct (find _ (rev defaultDimensions)) as [d|] eqn:E.
  - apply find_some in E as [Hin Hd]. exists d.
    split; [reflexivity|]. split; [now apply String.eqb_eq|].
    now apply in_rev.
  - exfalso. pose proof (find_none _ _ E d0 (proj1 (in_rev _ _) Hd0)) as Hf.
    apply String.eqb_neq in Hf. contradiction.
Qed.

Lemma default_device_resolves_witness :
  exists d,
    Map_get "iPhone 14" (attributedDimensions sample) = Some d
    /\ name d = "iPhone 14"
    /\ In d sample.
Proof.
  apply (default_device_resolves by_code sample "iPhone 14").
  reflexivity.
Defined.

End SiteProperties.
